(** * Image-to-sheet LINE bot: tabular text parser, delivery ledger and
      image-message handler.

    A shallow embedding of [src/app.py] (and of the copy of
    [convert_to_table] in [src/image_to_text.py]).

    - Python [str] values are sequences of Unicode code points, modelled as
      [list N]; [str.strip], [str.split] and [re.split] are written out.
    - The ledger file [saved_messages.json] is explicit state.
    - The handler runs in a small state-and-exception monad; every call to
      an external service is logged in a trace, and the behaviour of the
      services is a parameter ([Env]).
    - Calls to [logger] and reads of the environment variables have no
      effect on what is proved and are left out. *)

From Stdlib Require Import List NArith ZArith Bool String Ascii Lia.
Import ListNotations.

Set Implicit Arguments.

(** ** Python strings *)

Module PyStr.

Definition char := N.
Definition str := list char.

Definition TAB : char := 9%N.
Definition LF : char := 10%N.
Definition COMMA : char := 44%N.

(** A [str] literal whose characters are all ASCII. *)
Definition lit (s : string) : str :=
  List.map N_of_ascii (list_ascii_of_string s).

Definition str_eq_dec : forall a b : str, {a = b} + {a <> b} :=
  list_eq_dec N.eq_dec.

(** [len(s) != 0]: the truth value of a Python sequence. *)
Definition truthy {A : Type} (l : list A) : bool :=
  match l with
  | [] => false
  | _ :: _ => true
  end.

(** [str.isspace] on one code point: the characters [str.strip()] removes
    (CPython's [_PyUnicode_IsWhitespace]). *)
Definition isspace (c : char) : bool :=
  ((9 <=? c) && (c <=? 13) || (28 <=? c) && (c <=? 32)
   || (c =? 133) || (c =? 160) || (c =? 5760)
   || (8192 <=? c) && (c <=? 8202)
   || (c =? 8232) || (c =? 8233) || (c =? 8239) || (c =? 8287)
   || (c =? 12288))%N.

Fixpoint lstrip (s : str) : str :=
  match s with
  | [] => []
  | c :: s' => if isspace c then lstrip s' else s
  end.

Definition rstrip (s : str) : str := rev (lstrip (rev s)).

(** [s.strip()] *)
Definition strip (s : str) : str := rstrip (lstrip s).

(** Splitting at every character that satisfies [p]; the separators are
    dropped and empty pieces are kept, so the result is never empty.
    [s.split('\n')] and [re.split(r'[\t,]', s)] are both instances. *)
Fixpoint split_on (p : char -> bool) (s : str) : list str :=
  match s with
  | [] => [[]]
  | c :: s' =>
      if p c then [] :: split_on p s'
      else match split_on p s' with
           | [] => [[c]]
           | piece :: pieces => (c :: piece) :: pieces
           end
  end.

Definition is_newline (c : char) : bool := (c =? LF)%N.
Definition is_tab_or_comma (c : char) : bool := ((c =? TAB) || (c =? COMMA))%N.

(** [sep.join(fields)] for a one-character separator. *)
Fixpoint join (sep : char) (fields : list str) : str :=
  match fields with
  | [] => []
  | [f] => f
  | f :: rest => f ++ sep :: join sep rest
  end.

End PyStr.

Import PyStr.

(** ** Tabular text parser ([convert_to_table]) *)

(** The body of the [for line in lines] loop up to the list comprehension:
    [re.split], then [[item.strip() for item in row if item.strip()]]. *)
Definition line_row (line : str) : list str :=
  let row := split_on is_tab_or_comma line in
  List.map strip (List.filter (fun item => truthy (strip item)) row).

(** One iteration of the loop on the accumulator [table_data]. *)
Definition table_step (table_data : list (list str)) (line : str)
  : list (list str) :=
  let row := line_row line in
  if truthy row then table_data ++ [row] else table_data.

Definition convert_to_table (text : str) : list (list str) :=
  let lines := split_on is_newline (strip text) in
  fold_left table_step lines [].

(** ** Effects: ledger file, calls to the external services, exceptions *)

Definition bytes := list Byte.byte.

(** The three texts the handler replies with. *)
Inductive ReplyText : Type :=
| SavedToSheet
| ExtractionFailed
| ProcessingError.

Definition reply_text (r : ReplyText) : string :=
  match r with
  | SavedToSheet => "画像からテキストを抽出し、スプレッドシートに保存しました。"
  | ExtractionFailed => "テキストの抽出に失敗しました。"
  | ProcessingError => "処理中にエラーが発生しました。"
  end.

(** Exceptions. [DownloadFailed] is the handler's own [raise Exception(...)];
    the others come from the services and from the file system. *)
Inductive exn : Type :=
| DownloadFailed (status_code : Z)
| ServiceError
| OSError.

Inductive result (A : Type) : Type :=
| Ok (a : A)
| Raised (e : exn).
Arguments Ok {A} a.
Arguments Raised {A} e.

Record Response : Type := { status_code : Z; content : bytes }.

(** Calls that leave the process, in the order they are made. *)
Inductive Action : Type :=
| GetContent (message_id : str)
| GenerateContent (image_data : bytes)
| AppendToSheet (values : list (list str))
| ReplyMessage (reply_token : str) (text : ReplyText).

(** What the outside world answers: the media endpoint ([requests.get] on
    the content URL of a message identifier), the vision model ([Image.open]
    and [generate_content(...).text]), the spreadsheet ([append_to_sheet]
    with the fixed sheet and range), the reply endpoint ([reply_message] with
    a reply token and one text), and the clock.  Each call either returns or
    raises. *)
Record Env : Type := {
  requests_get : str -> result Response;
  generate_content : bytes -> result str;
  sheets_append : list (list str) -> result unit;
  reply_message : str -> ReplyText -> result unit;
  now : str
}.

(** [saved_messages_file] is the JSON list in [saved_messages.json], [None]
    when the file does not exist (the file is written by [save_message_id]
    only, so when it exists it holds a list of strings); [writable] tells
    whether [open(SAVED_MESSAGES_FILE, 'w')] succeeds; [trace] is the list of
    external calls made so far, oldest first. *)
Record State : Type := {
  saved_messages_file : option (list str);
  writable : bool;
  trace : list Action
}.

Definition M (A : Type) : Type := State -> result A * State.

Definition ret {A} (a : A) : M A := fun st => (Ok a, st).

Definition bind {A B} (m : M A) (f : A -> M B) : M B :=
  fun st =>
    match m st with
    | (Ok a, st') => f a st'
    | (Raised e, st') => (Raised e, st')
    end.

Definition raise {A} (e : exn) : M A := fun st => (Raised e, st).

(** [try: m  except Exception as e: h e] *)
Definition try_except {A} (m : M A) (h : exn -> M A) : M A :=
  fun st =>
    match m st with
    | (Ok a, st') => (Ok a, st')
    | (Raised e, st') => h e st'
    end.

Notation "x <- m ;; k" := (bind m (fun x => k))
  (at level 61, m at next level, right associativity).
Notation "m ;;; k" := (bind m (fun _ => k))
  (at level 61, right associativity).

(** Appending calls to the trace. *)
Definition log (acts : list Action) (st : State) : State :=
  {| saved_messages_file := saved_messages_file st;
     writable := writable st;
     trace := trace st ++ acts |}.

(** An external call: log it, then return or raise what the world answers. *)
Definition call {A} (a : Action) (r : result A) : M A :=
  fun st => (r, log [a] st).

(** ** Delivery ledger *)

(** Python's [x in l] on a list of strings. *)
Definition contains (x : str) (l : list str) : bool :=
  existsb (fun y => if str_eq_dec x y then true else false) l.

Definition load_saved_messages : M (list str) :=
  fun st =>
    match saved_messages_file st with
    | Some saved_messages => (Ok saved_messages, st)
    | None => (Ok [], st)
    end.

(** [with open(SAVED_MESSAGES_FILE, 'w') as f: json.dump(saved_messages, f)].
    The write either succeeds or is refused by [open], which leaves the file
    as it was.  A failure after the file has been opened (and truncated) is
    not modelled. *)
Definition dump_saved_messages (saved_messages : list str) : M unit :=
  fun st =>
    if writable st
    then (Ok tt, {| saved_messages_file := Some saved_messages;
                    writable := writable st;
                    trace := trace st |})
    else (Raised OSError, st).

Definition save_message_id (message_id : str) : M unit :=
  saved_messages <- load_saved_messages ;;
  if negb (contains message_id saved_messages)
  then dump_saved_messages (saved_messages ++ [message_id])
  else ret tt.

(** The ledger's [has]: the membership test the handler performs. *)
Definition ledger_has (message_id : str) : M bool :=
  saved_messages <- load_saved_messages ;;
  ret (contains message_id saved_messages).

(** A run of [save_message_id] calls, one per identifier. *)
Fixpoint save_all (ids : list str) : M unit :=
  match ids with
  | [] => ret tt
  | id :: rest => save_message_id id ;;; save_all rest
  end.

(** The ledger a state holds. *)
Definition ledger (st : State) : list str :=
  match saved_messages_file st with
  | Some saved_messages => saved_messages
  | None => []
  end.

(** ** Image-message handler *)

Record MessageEvent : Type := { message_id : str; reply_token : str }.

Definition extract_text_from_image (env : Env) (image_data : bytes)
  : M (option str) :=
  try_except
    (text <- call (GenerateContent image_data) (generate_content env image_data) ;;
     ret (Some text))
    (fun _ => ret None).

Definition append_to_sheet (env : Env) (values : list (list str)) : M unit :=
  call (AppendToSheet values) (sheets_append env values).

Definition reply (env : Env) (event : MessageEvent) (text : ReplyText) : M unit :=
  call (ReplyMessage (reply_token event) text)
       (reply_message env (reply_token event) text).

(** [[current_time, f"LINE Message ID: {message_id}"]] *)
Definition metadata_row (env : Env) (event : MessageEvent) : list str :=
  [now env; lit "LINE Message ID: " ++ message_id event].

Definition handle_image_message (env : Env) (event : MessageEvent) : M unit :=
  try_except
    (saved_messages <- load_saved_messages ;;
     if contains (message_id event) saved_messages then ret tt
     else
       response <- call (GetContent (message_id event))
                        (requests_get env (message_id event)) ;;
       if (status_code response =? 200)%Z then
         let image_data := content response in
         extracted_text <- extract_text_from_image env image_data ;;
         (* [if extracted_text:] is false on [None] and on the empty string *)
         (match extracted_text with
          | Some text =>
              if truthy text then
                let table_data := convert_to_table text in
                let values := [metadata_row env event] ++ table_data in
                try_except
                  (append_to_sheet env values ;;;
                   reply env event SavedToSheet)
                  (fun e => raise e)
              else reply env event ExtractionFailed
          | None => reply env event ExtractionFailed
          end) ;;;
         save_message_id (message_id event)
       else raise (DownloadFailed (status_code response)))
    (fun _ => reply env event ProcessingError).

(** The replies and the spreadsheet appends among a list of calls. *)
Definition replies (t : list Action) : list ReplyText :=
  flat_map (fun a => match a with ReplyMessage _ text => [text] | _ => [] end) t.

Definition appends (t : list Action) : list (list (list str)) :=
  flat_map (fun a => match a with AppendToSheet values => [values] | _ => [] end) t.

(** A ledger file before any call is made. *)
Definition initial (file : option (list str)) (w : bool) : State :=
  {| saved_messages_file := file; writable := w; trace := [] |}.

(** The state after [record]: the identifier appended to the ledger file. *)
Definition recorded (id : str) (st : State) : State :=
  {| saved_messages_file := Some (ledger st ++ [id]);
     writable := writable st;
     trace := trace st |}.

(** ** Webhook endpoint ([callback]) *)

(** What the endpoint answers: ['OK'], or [abort(status)]. *)
Inductive HttpResult : Type :=
| OK
| Abort (status : Z).

(** What [handler.handle(body, signature)] of the LINE SDK finds in a
    request: a signature that does not match ([InvalidSignatureError]), a
    body it cannot read (any other exception), or the events of the body;
    of these only the image messages have a handler registered, and the SDK
    calls it on each of them in order. *)
Inductive Webhook : Type :=
| InvalidSignature
| Unreadable
| ImageMessages (events : list MessageEvent).

Fixpoint handle_events (env : Env) (events : list MessageEvent) : M unit :=
  match events with
  | [] => ret tt
  | event :: rest => handle_image_message env event ;;; handle_events env rest
  end.

(** [signature] is the [X-Line-Signature] header, [None] when absent. *)
Definition callback (env : Env) (signature : option str) (webhook : Webhook)
  : State -> HttpResult * State :=
  fun st =>
    match signature with
    | None => (Abort 400, st)
    | Some s =>
        if truthy s then
          match webhook with
          | InvalidSignature => (Abort 400, st)
          | Unreadable => (Abort 500, st)
          | ImageMessages events =>
              match handle_events env events st with
              | (Ok _, st') => (OK, st')
              | (Raised _, st') => (Abort 500, st')
              end
          end
        else (Abort 400, st)
    end.

(** ** The command-line script ([src/image_to_text.py]) *)

Module ImageToText.

(** What opening the image and asking the model gives: the text of the
    response, or an exception [e], of which [message] is [str(e)]. *)
Inductive Extraction : Type :=
| ResponseText (text : str)
| Failure (message : str).

(** The code points of ["エラーが発生しました:"]. *)
Definition error_label : str :=
  [12456; 12521; 12540; 12364; 30330; 29983; 12375; 12414; 12375; 12383;
   58]%N.

(** [f"エラーが発生しました: {str(e)}"] *)
Definition error_text (message : str) : str :=
  error_label ++ lit " " ++ message.

Definition extract_text_from_image (x : Extraction) : str :=
  match x with
  | ResponseText text => text
  | Failure message => error_text message
  end.

Definition image_path : str := lit "sample.png".

(** The lines the script prints. *)
Inductive Printed : Type :=
| Heading
| ExtractedText (text : str)
| Added
| AppendFailed (e : exn).

Record Run : Type := {
  printed : list Printed;
  appended : list (list (list str))
}.

(** The body of [if __name__ == "__main__":]; [appended] lists the [values]
    of the calls to [append_to_sheet]. *)
Definition main (x : Extraction) (now : str)
  (sheets_append : list (list str) -> result unit) : Run :=
  let extracted_text := extract_text_from_image x in
  let table_data := convert_to_table extracted_text in
  let values := [[now; image_path]] ++ table_data in
  match sheets_append values with
  | Ok _ =>
      {| printed := [Heading; ExtractedText extracted_text; Added];
         appended := [values] |}
  | Raised e =>
      {| printed := [Heading; ExtractedText extracted_text; AppendFailed e];
         appended := [values] |}
  end.

End ImageToText.

(** ** Predicates of the statements *)

(** A string that does not start with a whitespace character. *)
Definition no_lead (s : str) : Prop :=
  match s with
  | [] => True
  | c :: _ => isspace c = false
  end.

(** Non-empty, with no whitespace at either end. *)
Definition trimmed (f : str) : Prop := f <> [] /\ no_lead f /\ no_lead (rev f).

(** A well-formed field: trimmed, with no separator and no line break. *)
Definition field_ok (f : str) : Prop :=
  trimmed f /\
  Forall (fun c => is_tab_or_comma c = false /\ is_newline c = false) f.

(** The rows of a list of lines: the lines' rows, the empty ones dropped. *)
Definition rows_of (lines : list str) : list (list str) :=
  filter (fun row => truthy row) (map line_row lines).

(** A character that the parser drops: whitespace (tab and line feed
    included) or a comma. *)
Definition is_blank (c : char) : Prop := isspace c = true \/ c = COMMA.

(** ** Sample data *)

(** [parse("a,b\tc\n\n d ,, e ")] of the specification. *)
Definition sample_text : str :=
  lit "a,b" ++ [TAB] ++ lit "c" ++ [LF; LF] ++ lit " d ,, e ".

Definition msg123 : str := lit "msg123".

Definition sample_event : MessageEvent :=
  {| message_id := msg123; reply_token := lit "reply-token" |}.

Definition sample_image : bytes := [Byte.x89; Byte.x50; Byte.x4e; Byte.x47].

(** Text that is not empty and has no field: spaces, a line feed, a tab. *)
Definition blank_text : str := lit "  " ++ [LF; TAB] ++ lit " ".

(** A world in which the image is served, the model answers [extracted],
    the spreadsheet accepts or refuses the rows, and replies are delivered
    or refused. *)
Definition sample_env (extracted : result str) (sheet_ok reply_ok : bool) : Env :=
  {| requests_get := fun _ => Ok {| status_code := 200; content := sample_image |};
     generate_content := fun _ => extracted;
     sheets_append := fun _ => if sheet_ok then Ok tt else Raised ServiceError;
     reply_message := fun _ _ => if reply_ok then Ok tt else Raised ServiceError;
     now := lit "2024-05-17 09:30:00" |}.

(** A world in which the media endpoint answers [fetched]. *)
Definition fetch_env (fetched : result Response) : Env :=
  {| requests_get := fun _ => fetched;
     generate_content := fun _ => Ok sample_text;
     sheets_append := fun _ => Ok tt;
     reply_message := fun _ _ => Ok tt;
     now := lit "2024-05-17 09:30:00" |}.

(** A later world: another time on the clock, another answer of the model. *)
Definition later_env : Env :=
  {| requests_get := fun _ => Ok {| status_code := 200; content := sample_image |};
     generate_content := fun _ => Ok (lit "a;b,c");
     sheets_append := fun _ => Ok tt;
     reply_message := fun _ _ => Ok tt;
     now := lit "2024-05-17 09:45:10" |}.

(** * Properties *)

(** ** Stripping *)

Lemma lstrip_no_lead (s : str) : no_lead (lstrip s).
Proof.
  induction s as [|c s IH]; simpl; [exact I|].
  destruct (isspace c) eqn:E; [exact IH|exact E].
Qed.

Lemma lstrip_fixed (s : str) : no_lead s -> lstrip s = s.
Proof.
  destruct s as [|c s]; simpl; [reflexivity|].
  intros ->. reflexivity.
Qed.

Lemma lstrip_suffix (s : str) : exists p, s = p ++ lstrip s.
Proof.
  induction s as [|c s [p IH]]; simpl.
  - exists []. reflexivity.
  - destruct (isspace c).
    + exists (c :: p). simpl. f_equal. exact IH.
    + exists []. reflexivity.
Qed.

Lemma no_lead_app_l (a b : str) : no_lead (a ++ b) -> no_lead a.
Proof. destruct a; simpl; auto. Qed.

Lemma no_lead_app_r (a b : str) : a <> [] -> no_lead a -> no_lead (a ++ b).
Proof. destruct a; simpl; [congruence|auto]. Qed.

Lemma strip_fixed (s : str) : no_lead s -> no_lead (rev s) -> strip s = s.
Proof.
  intros H1 H2. unfold strip, rstrip.
  rewrite (lstrip_fixed s H1), (lstrip_fixed _ H2). apply rev_involutive.
Qed.

(** The result of [strip] starts and ends with a non-space character. *)
Lemma strip_no_lead (s : str) : no_lead (strip s) /\ no_lead (rev (strip s)).
Proof.
  unfold strip, rstrip. rewrite rev_involutive.
  split; [|apply lstrip_no_lead].
  destruct (lstrip_suffix (rev (lstrip s))) as [p Hp].
  apply (f_equal (@rev char)) in Hp.
  rewrite rev_involutive, rev_app_distr in Hp.
  apply no_lead_app_l with (b := rev p). rewrite <- Hp. apply lstrip_no_lead.
Qed.

Lemma strip_idempotent (s : str) : strip (strip s) = strip s.
Proof. destruct (strip_no_lead s). now apply strip_fixed. Qed.

(** [strip] only removes characters. *)
Lemma strip_decompose (s : str) : exists p q, s = p ++ strip s ++ q.
Proof.
  destruct (lstrip_suffix s) as [p Hp].
  destruct (lstrip_suffix (rev (lstrip s))) as [q Hq].
  exists p, (rev q). unfold strip, rstrip.
  rewrite <- rev_app_distr, <- Hq, rev_involutive. exact Hp.
Qed.

Lemma strip_Forall (P : char -> Prop) (s : str) :
  Forall P s -> Forall P (strip s).
Proof.
  intros H. destruct (strip_decompose s) as (p & q & E).
  rewrite E in H. apply Forall_app in H as [_ H].
  apply Forall_app in H as [H _]. exact H.
Qed.

(** ** Splitting and joining *)

Lemma split_on_nonempty (p : char -> bool) (s : str) : split_on p s <> [].
Proof.
  destruct s as [|c s]; simpl; [discriminate|].
  destruct (p c); [discriminate|]. destruct (split_on p s); discriminate.
Qed.

(** Every piece is free of separators, and inherits what holds of all the
    characters of the string. *)
Lemma split_on_pieces (p : char -> bool) (P : char -> Prop) (s : str) :
  Forall P s ->
  Forall (fun piece => Forall (fun c => p c = false /\ P c) piece)
         (split_on p s).
Proof.
  induction s as [|c s IH]; intros H; simpl.
  - repeat constructor.
  - inversion H as [|? ? Hc Hs]; subst. specialize (IH Hs).
    destruct (p c) eqn:E.
    + constructor; [constructor|exact IH].
    + destruct (split_on p s) as [|piece pieces].
      * repeat constructor; assumption.
      * inversion IH; subst. constructor; [|assumption].
        constructor; [split|]; assumption.
Qed.

Lemma split_on_free (p : char -> bool) (s : str) :
  Forall (fun c => p c = false) s -> split_on p s = [s].
Proof.
  induction s as [|c s IH]; intros H; simpl; [reflexivity|].
  inversion H as [|? ? Hc Hs]; subst. rewrite Hc, (IH Hs). reflexivity.
Qed.

Lemma split_on_app_sep (p : char -> bool) (f : str) (sep : char) (rest : str) :
  Forall (fun c => p c = false) f -> p sep = true ->
  split_on p (f ++ sep :: rest) = f :: split_on p rest.
Proof.
  intros Hf Hsep. induction f as [|c f IH]; simpl.
  - rewrite Hsep. reflexivity.
  - inversion Hf as [|? ? Hc Hf']; subst. rewrite Hc, (IH Hf'). reflexivity.
Qed.

Lemma split_on_join (p : char -> bool) (sep : char) (fields : list str) :
  p sep = true -> fields <> [] ->
  Forall (fun f => Forall (fun c => p c = false) f) fields ->
  split_on p (join sep fields) = fields.
Proof.
  intros Hsep. induction fields as [|f rest IH]; intros Hne H; [congruence|].
  inversion H as [|? ? Hf Hrest]; subst.
  destruct rest as [|g rest].
  - simpl. apply split_on_free. exact Hf.
  - change (join sep (f :: g :: rest)) with (f ++ sep :: join sep (g :: rest)).
    rewrite split_on_app_sep by assumption.
    rewrite IH by (congruence || assumption). reflexivity.
Qed.

Lemma join_Forall (P : char -> Prop) (sep : char) (fields : list str) :
  P sep -> Forall (Forall P) fields -> Forall P (join sep fields).
Proof.
  intros Hsep. induction fields as [|f rest IH]; intros H; [constructor|].
  inversion H as [|? ? Hf Hrest]; subst.
  destruct rest as [|g rest]; [exact Hf|].
  change (join sep (f :: g :: rest)) with (f ++ sep :: join sep (g :: rest)).
  apply Forall_app. split; [exact Hf|]. constructor; [exact Hsep|]. now apply IH.
Qed.

Lemma join_no_lead (sep : char) (fields : list str) :
  Forall trimmed fields -> no_lead (join sep fields).
Proof.
  destruct fields as [|f rest]; intros H; [exact I|].
  inversion H as [|? ? (Hne & Hl & _) _]; subst.
  destruct rest as [|g rest]; [exact Hl|].
  change (join sep (f :: g :: rest)) with (f ++ sep :: join sep (g :: rest)).
  now apply no_lead_app_r.
Qed.

Lemma join_no_trail (sep : char) (fields : list str) :
  Forall trimmed fields -> no_lead (rev (join sep fields)).
Proof.
  induction fields as [|f rest IH]; intros H; [exact I|].
  inversion H as [|? ? (Hne & _ & Hr) Hrest]; subst.
  destruct rest as [|g rest]; [exact Hr|].
  change (join sep (f :: g :: rest)) with (f ++ sep :: join sep (g :: rest)).
  rewrite rev_app_distr. simpl rev at 1. rewrite <- app_assoc.
  specialize (IH Hrest).
  apply no_lead_app_r; [|exact IH].
  inversion Hrest as [|? ? (Hg & _ & _) _]; subst.
  intros E. apply (f_equal (@rev char)) in E. rewrite rev_involutive in E.
  destruct rest as [|h rest].
  - simpl in E. congruence.
  - change (join sep (g :: h :: rest)) with (g ++ sep :: join sep (h :: rest)) in E.
    destruct g; simpl in E; congruence.
Qed.

(** ** The parser *)

Lemma trimmed_strip (f : str) : trimmed f -> strip f = f.
Proof. intros (_ & Hl & Hr). now apply strip_fixed. Qed.

Lemma truthy_nonempty {A : Type} (l : list A) : truthy l = true <-> l <> [].
Proof. destruct l; simpl; split; congruence. Qed.

(** The loop of [convert_to_table] keeps, in order, the rows of the lines
    that have one. *)
Lemma fold_table_step (lines : list str) (table_data : list (list str)) :
  fold_left table_step lines table_data
  = table_data ++ filter (fun row => truthy row) (map line_row lines).
Proof.
  revert table_data. induction lines as [|line lines IH]; intros table_data; simpl.
  - now rewrite app_nil_r.
  - rewrite IH. unfold table_step.
    destruct (truthy (line_row line)); [|reflexivity].
    now rewrite <- app_assoc.
Qed.

Lemma convert_to_table_filter (text : str) :
  convert_to_table text
  = filter (fun row => truthy row)
           (map line_row (split_on is_newline (strip text))).
Proof. unfold convert_to_table. now rewrite fold_table_step. Qed.

Lemma line_row_fields (line : str) :
  Forall (fun c => is_newline c = false) line ->
  Forall field_ok (line_row line).
Proof.
  intros Hline. unfold line_row.
  pose proof (split_on_pieces is_tab_or_comma Hline) as Hp.
  induction Hp as [|item items Hitem _ IH]; simpl; [constructor|].
  destruct (truthy (strip item)) eqn:E; [|exact IH].
  simpl. constructor; [|exact IH].
  split.
  - split; [now apply truthy_nonempty|apply strip_no_lead].
  - now apply strip_Forall.
Qed.

Lemma convert_to_table_ok (text : str) :
  Forall (fun row => row <> [] /\ Forall field_ok row) (convert_to_table text).
Proof.
  rewrite convert_to_table_filter.
  assert (Hall : Forall (fun _ : char => True) (strip text))
    by (apply Forall_forall; auto).
  pose proof (split_on_pieces is_newline Hall) as Hl. clear Hall.
  induction Hl as [|line lines Hline _ IH]; simpl; [constructor|].
  destruct (truthy (line_row line)) eqn:E; [|exact IH].
  constructor; [|exact IH]. split; [now apply truthy_nonempty|].
  apply line_row_fields.
  eapply Forall_impl; [|exact Hline]. simpl. tauto.
Qed.

Lemma strip_trimmed_fields (row : list str) :
  Forall trimmed row ->
  map strip (filter (fun item => truthy (strip item)) row) = row.
Proof.
  induction 1 as [|f row Hf _ IH]; simpl; [reflexivity|].
  pose proof (trimmed_strip Hf) as Hs. rewrite Hs.
  destruct Hf as (Hne & _). apply truthy_nonempty in Hne. rewrite Hne.
  simpl. now rewrite IH, Hs.
Qed.

Lemma sep_not_newline (sep : char) :
  is_tab_or_comma sep = true -> is_newline sep = false.
Proof.
  unfold is_tab_or_comma, is_newline, TAB, COMMA, LF. intros H.
  apply orb_true_iff in H as [H|H]; apply N.eqb_eq in H; subst; reflexivity.
Qed.

(** Parsing a well-formed row written on one line gives the row back. *)
Lemma convert_to_table_join (sep : char) (row : list str) :
  is_tab_or_comma sep = true -> row <> [] -> Forall field_ok row ->
  convert_to_table (join sep row) = [row].
Proof.
  intros Hsep Hne Hrow.
  assert (Htrim : Forall trimmed row)
    by (eapply Forall_impl; [|exact Hrow]; intros f [H _]; exact H).
  assert (Hnl : Forall (Forall (fun c => is_newline c = false)) row).
  { eapply Forall_impl; [|exact Hrow]. intros f [_ H].
    eapply Forall_impl; [|exact H]. simpl. tauto. }
  assert (Htc : Forall (fun f => Forall (fun c => is_tab_or_comma c = false) f) row).
  { eapply Forall_impl; [|exact Hrow]. intros f [_ H].
    eapply Forall_impl; [|exact H]. simpl. tauto. }
  unfold convert_to_table.
  rewrite strip_fixed by (apply join_no_lead || apply join_no_trail; exact Htrim).
  rewrite split_on_free
    by (apply join_Forall; [now apply sep_not_newline|exact Hnl]).
  simpl. unfold table_step, line_row.
  rewrite split_on_join by assumption.
  rewrite strip_trimmed_fields by assumption.
  apply truthy_nonempty in Hne. now rewrite Hne.
Qed.

(** The example of the specification:
    [parse("a,b\tc\n\n d ,, e ") = [["a","b","c"],["d","e"]]]. *)
Example convert_to_table_sample :
  convert_to_table sample_text
  = [[lit "a"; lit "b"; lit "c"]; [lit "d"; lit "e"]].
Proof. vm_compute. reflexivity. Qed.

Example convert_to_table_blank : convert_to_table blank_text = [].
Proof. vm_compute. reflexivity. Qed.

(** C7. [convert_to_table] is a function of its argument alone, defined on
    every string: the rows it returns are, in line order, the rows of
    those lines of the stripped text that have at least one field left after
    splitting and trimming, so that a line with no such field (a
    blank line) gives no row; every row returned has a field, and every
    field of every row is non-empty. *)
Theorem convert_to_table_rows (text : str) :
  (exists table_data, convert_to_table text = table_data) /\
  convert_to_table text
  = filter (fun row => truthy row)
           (map line_row (split_on is_newline (strip text))) /\
  Forall (fun row => (exists f, In f row /\ f <> []) /\
                     Forall (fun f => f <> []) row)
         (convert_to_table text).
Proof.
  split; [eexists; reflexivity|]. split; [apply convert_to_table_filter|].
  eapply Forall_impl; [|apply convert_to_table_ok]. simpl.
  intros row [Hne Hrow].
  assert (Hall : Forall (fun f : str => f <> []) row).
  { eapply Forall_impl; [|exact Hrow]. intros f [[H _] _]. exact H. }
  split; [|exact Hall].
  destruct row as [|f row]; [exfalso; now apply Hne|].
  exists f. split; [now left|]. now inversion Hall.
Qed.

(** C8. Joining the fields of any row produced by [convert_to_table] with a
    single comma or a single tab and parsing the result gives back exactly
    that one row. *)
Theorem convert_to_table_rejoin (text : str) (row : list str) (sep : char) :
  In row (convert_to_table text) ->
  sep = COMMA \/ sep = TAB ->
  convert_to_table (join sep row) = [row].
Proof.
  intros Hin Hsep.
  pose proof (convert_to_table_ok text) as Hok.
  rewrite Forall_forall in Hok. destruct (Hok row Hin) as [Hne Hrow].
  apply convert_to_table_join; [|assumption|assumption].
  destruct Hsep; subst; reflexivity.
Qed.

Lemma convert_to_table_rejoin_witness :
  In [lit "d"; lit "e"] (convert_to_table sample_text) /\
  convert_to_table (join TAB [lit "d"; lit "e"]) = [[lit "d"; lit "e"]].
Proof.
  assert (H : In [lit "d"; lit "e"] (convert_to_table sample_text))
    by (vm_compute; right; left; reflexivity).
  split; [exact H|].
  apply (convert_to_table_rejoin sample_text [lit "d"; lit "e"] H).
  right. reflexivity.
Defined.

(** C10. Every field of every row produced by [convert_to_table] is left
    unchanged by [strip], neither begins nor ends with a whitespace
    character, and contains no comma, no tab and no line feed. *)
Theorem convert_to_table_fields (text : str) :
  Forall (Forall (fun f => strip f = f /\
                           no_lead f /\ no_lead (rev f) /\
                           ~ In COMMA f /\ ~ In TAB f /\ ~ In LF f))
         (convert_to_table text).
Proof.
  eapply Forall_impl; [|apply convert_to_table_ok]. simpl.
  intros row [_ Hrow]. eapply Forall_impl; [|exact Hrow]. simpl.
  intros f [Ht Hc]. split; [now apply trimmed_strip|].
  destruct Ht as (_ & Hl & Hr). split; [exact Hl|]. split; [exact Hr|].
  rewrite Forall_forall in Hc.
  repeat split; intros Hin; destruct (Hc _ Hin) as [H1 H2];
    vm_compute in H1, H2; congruence.
Qed.

(** ** The ledger *)

Lemma contains_In (x : str) (l : list str) : contains x l = true <-> In x l.
Proof.
  unfold contains. rewrite existsb_exists. split.
  - intros (y & Hy & E). destruct (str_eq_dec x y); [now subst|discriminate].
  - intros H. exists x. split; [exact H|].
    destruct (str_eq_dec x x); [reflexivity|congruence].
Qed.

Lemma contains_app (x : str) (l1 l2 : list str) :
  contains x (l1 ++ l2) = contains x l1 || contains x l2.
Proof. apply existsb_app. Qed.

Lemma contains_self (x : str) : contains x [x] = true.
Proof. apply contains_In. now left. Qed.

Lemma load_saved_messages_run (st : State) :
  load_saved_messages st = (Ok (ledger st), st).
Proof.
  unfold load_saved_messages, ledger.
  destruct (saved_messages_file st); reflexivity.
Qed.

Lemma ledger_has_run (id : str) (st : State) :
  ledger_has id st = (Ok (contains id (ledger st)), st).
Proof. unfold ledger_has, bind. now rewrite load_saved_messages_run. Qed.

(** [save_message_id] writes only when the identifier is absent, and
    raises only when that write is refused. *)
Lemma save_message_id_run (id : str) (st : State) :
  save_message_id id st
  = if contains id (ledger st) then (Ok tt, st)
    else if writable st
         then (Ok tt, recorded id st)
         else (Raised OSError, st).
Proof.
  unfold save_message_id, bind. rewrite load_saved_messages_run.
  destruct (contains id (ledger st)); simpl; [reflexivity|].
  unfold dump_saved_messages, recorded.
  destruct (writable st); reflexivity.
Qed.

Lemma count_occ_contains (x : str) (l : list str) :
  contains x l = false -> count_occ str_eq_dec l x = 0.
Proof.
  intros H. apply count_occ_not_In. intros Hin.
  apply contains_In in Hin. congruence.
Qed.

Lemma contains_count_occ (x : str) (l : list str) :
  contains x l = true -> 1 <= count_occ str_eq_dec l x.
Proof.
  intros H. apply contains_In in H.
  apply (count_occ_In str_eq_dec) in H. lia.
Qed.

Lemma NoDup_snoc (x : str) (l : list str) :
  contains x l = false -> NoDup l -> NoDup (l ++ [x]).
Proof.
  intros Hx Hl. apply NoDup_app; [exact Hl|repeat constructor; auto|].
  intros y Hy [E|[]]. subst. apply contains_In in Hy. congruence.
Qed.

(** Recording a list of identifiers in a writable store: the run returns,
    keeps the store writable, and adds exactly the identifiers given. *)
Lemma save_all_run (ids : list str) (st : State) :
  writable st = true ->
  exists st',
    save_all ids st = (Ok tt, st') /\
    writable st' = true /\ trace st' = trace st /\
    (forall id, contains id (ledger st')
                = contains id (ledger st) || contains id ids) /\
    (NoDup (ledger st) -> NoDup (ledger st')).
Proof.
  revert st. induction ids as [|x ids IH]; intros st Hw; simpl.
  - exists st. repeat split; auto. intros id. now rewrite orb_false_r.
  - unfold bind. rewrite save_message_id_run, Hw.
    destruct (contains x (ledger st)) eqn:Hx.
    + destruct (IH st Hw) as (st' & Hrun & Hw' & Ht & Hc & Hn).
      exists st'. repeat split; auto.
      intros id. rewrite Hc. destruct (str_eq_dec id x) as [->|Hne].
      * rewrite Hx. reflexivity.
      * destruct (contains id (ledger st)); reflexivity.
    + match goal with |- context [save_all ids ?s] =>
        destruct (IH s Hw) as (st' & Hrun & Hw' & Ht & Hc & Hn) end.
      exists st'. repeat split; auto.
      * intros id. rewrite Hc. unfold ledger at 1. simpl.
        rewrite contains_app. simpl. now rewrite orb_false_r, orb_assoc.
      * intros Hnd. apply Hn. unfold ledger. simpl. now apply NoDup_snoc.
Qed.

(** C6. On a store that does not exist, [has] answers "not present" and
    raises nothing.  After any run of [record] calls starting from that
    store, [has id] is true exactly when [id] is among the identifiers
    recorded (so it is false before any [record id]), and the ledger has no
    duplicate.  On a writable store [record id] returns.  Whenever
    [record id] returns, [has id] is true afterwards and a second
    [record id] returns and changes nothing: [id] occurs once if it was
    absent and as often as before otherwise, and a ledger without
    duplicates stays so. *)
Theorem ledger_has_record
  (id : str) (ids : list str) (w : bool) (t : list Action) :
  let missing := {| saved_messages_file := None; writable := w; trace := t |} in
  let fresh := {| saved_messages_file := None; writable := true; trace := t |} in
  ledger_has id missing = (Ok false, missing) /\
  (exists st1,
      save_all ids fresh = (Ok tt, st1) /\
      ledger_has id st1 = (Ok (contains id ids), st1) /\
      NoDup (ledger st1)) /\
  (forall st, writable st = true ->
      exists st', save_message_id id st = (Ok tt, st')) /\
  (forall st st',
      save_message_id id st = (Ok tt, st') ->
      ledger_has id st' = (Ok true, st') /\
      save_message_id id st' = (Ok tt, st') /\
      count_occ str_eq_dec (ledger st') id
      = Nat.max 1 (count_occ str_eq_dec (ledger st) id) /\
      (NoDup (ledger st) -> NoDup (ledger st'))).
Proof.
  intros missing fresh. split; [reflexivity|]. split; [|split].
  - destruct (@save_all_run ids fresh eq_refl) as (st1 & Hrun & _ & _ & Hc & Hn).
    exists st1. split; [exact Hrun|]. split.
    + rewrite ledger_has_run, Hc. reflexivity.
    + apply Hn. constructor.
  - intros st Hw. rewrite save_message_id_run, Hw.
    destruct (contains id (ledger st)); eexists; reflexivity.
  - intros st st'. rewrite save_message_id_run.
    destruct (contains id (ledger st)) eqn:Hc.
    + intros E. injection E as <-. split; [now rewrite ledger_has_run, Hc|].
      split; [now rewrite save_message_id_run, Hc|].
      split; [|auto]. apply contains_count_occ in Hc. lia.
    + destruct (writable st); [|discriminate].
      intros E. injection E as <-.
      assert (Hl : ledger (recorded id st) = ledger st ++ [id]) by reflexivity.
      assert (Hin : contains id (ledger (recorded id st)) = true)
        by (rewrite Hl, contains_app, contains_self; apply orb_true_r).
      split; [now rewrite ledger_has_run, Hin|].
      split; [now rewrite save_message_id_run, Hin|].
      rewrite Hl. split.
      * rewrite count_occ_app, (count_occ_contains _ _ Hc). simpl.
        destruct (str_eq_dec id id); [reflexivity|congruence].
      * intros Hnd. now apply NoDup_snoc.
Qed.

Lemma ledger_has_record_witness :
  ledger_has msg123 (recorded msg123 (initial None true))
  = (Ok true, recorded msg123 (initial None true)) /\
  save_message_id msg123 (recorded msg123 (initial None true))
  = (Ok tt, recorded msg123 (initial None true)).
Proof.
  destruct (@ledger_has_record msg123 [] true []) as (_ & _ & _ & H).
  destruct (H (initial None true) (recorded msg123 (initial None true))
              eq_refl) as (H1 & H2 & _).
  split; [exact H1|exact H2].
Defined.

(** ** The handler *)

Lemma log_log (a b : list Action) (st : State) :
  log b (log a st) = log (a ++ b) st.
Proof. unfold log. simpl. now rewrite app_assoc. Qed.

Lemma ledger_log (a : list Action) (st : State) : ledger (log a st) = ledger st.
Proof. reflexivity. Qed.

Lemma rows_truthy (text : str) :
  convert_to_table text <> [] -> truthy text = true.
Proof. destruct text; [intros H; now destruct H|reflexivity]. Qed.

(** Unfolds the handler down to the answers of the outside world. *)
Ltac run_handler :=
  cbv [handle_image_message try_except bind ret raise call reply
       append_to_sheet extract_text_from_image];
  rewrite ?load_saved_messages_run.


(** Closes a goal on the calls of a run once the run is unfolded. *)
Ltac close_run :=
  rewrite ?log_log; cbn [snd recorded log trace app];
  eexists; split; [reflexivity|]; simpl; auto 10.

(** Every run of the handler only adds calls to the trace, and the replies
    among them are: none (duplicate delivery), one of the three texts, or a
    success or "extraction failed" reply followed by the generic error
    reply. *)
Lemma handle_replies (env : Env) (event : MessageEvent) (st : State) :
  exists calls,
    trace (snd (handle_image_message env event st)) = trace st ++ calls /\
    In (replies calls)
       [[]; [SavedToSheet]; [ExtractionFailed]; [ProcessingError];
        [SavedToSheet; ProcessingError]; [ExtractionFailed; ProcessingError]].
Proof.
  run_handler.
  destruct (contains (message_id event) (ledger st)) eqn:Hc.
  { exists []. rewrite app_nil_r. simpl. auto. }
  destruct (requests_get env (message_id event)) as [response|e];
    [|close_run].
  cbv beta iota.
  destruct (status_code response =? 200)%Z; [|close_run].
  cbv beta iota.
  assert (Hsave : forall calls,
    save_message_id (message_id event) (log calls st)
    = if writable st then (Ok tt, recorded (message_id event) (log calls st))
      else (Raised OSError, log calls st)).
  { intros calls. now rewrite save_message_id_run, ledger_log, Hc. }
  destruct (generate_content env (content response)) as [[|c text]|e];
    cbv beta iota; cbn [truthy]; rewrite ?log_log;
    try destruct (sheets_append _ _);
    try destruct (reply_message env (reply_token event) _);
    rewrite ?log_log, ?Hsave; try destruct (writable st); close_run.
Qed.

(** C1. When the message identifier is already in the ledger the handler
    returns at once and leaves the state as it was: nothing is added to the
    trace (no media fetch, no extraction, no spreadsheet append, no reply)
    and the ledger file is untouched. *)
Theorem handle_duplicate (env : Env) (event : MessageEvent) (st : State) :
  contains (message_id event) (ledger st) = true ->
  handle_image_message env event st = (Ok tt, st) /\
  trace (snd (handle_image_message env event st)) = trace st /\
  saved_messages_file (snd (handle_image_message env event st))
  = saved_messages_file st.
Proof.
  intros H.
  assert (E : handle_image_message env event st = (Ok tt, st))
    by (run_handler; now rewrite H).
  rewrite E. repeat split.
Qed.

Lemma handle_duplicate_witness :
  handle_image_message (sample_env (Ok sample_text) true true) sample_event
    (initial (Some [msg123]) true)
  = (Ok tt, initial (Some [msg123]) true).
Proof.
  apply (@handle_duplicate (sample_env (Ok sample_text) true true) sample_event
           (initial (Some [msg123]) true)).
  reflexivity.
Defined.

(** C2, amended. On a first delivery (identifier not in the ledger) where
    the media fetch answers 200, extraction returns text that parses into at
    least one row and the spreadsheet append succeeds: the handler makes, in
    order, the fetch, the extraction, one append of the metadata row
    (timestamp, identifier) followed by the parsed rows in line order, and
    one reply with the success text; at most one more call follows, a
    generic error reply, so that the spreadsheet receives exactly that one
    append and exactly one success reply is made.  When, in addition,
    neither the success reply nor the ledger write raises, no call follows:
    the handler returns normally, the success reply is the only reply, and
    the identifier is then in the ledger. *)
Theorem handle_first_delivery
  (env : Env) (event : MessageEvent) (st : State)
  (response : Response) (text : str) :
  contains (message_id event) (ledger st) = false ->
  requests_get env (message_id event) = Ok response ->
  status_code response = 200%Z ->
  generate_content env (content response) = Ok text ->
  convert_to_table text <> [] ->
  sheets_append env (metadata_row env event :: convert_to_table text) = Ok tt ->
  let values :=
    [now env; lit "LINE Message ID: " ++ message_id event]
    :: filter (fun row => truthy row)
         (map line_row (split_on is_newline (strip text))) in
  let calls :=
    [GetContent (message_id event);
     GenerateContent (content response);
     AppendToSheet values;
     ReplyMessage (reply_token event) SavedToSheet] in
  (exists rest,
     trace (snd (handle_image_message env event st))
     = trace st ++ calls ++ rest /\
     (rest = [] \/ rest = [ReplyMessage (reply_token event) ProcessingError]) /\
     appends (calls ++ rest) = [values] /\
     filter (fun r => match r with SavedToSheet => true | _ => false end)
       (replies (calls ++ rest)) = [SavedToSheet]) /\
  (reply_message env (reply_token event) SavedToSheet = Ok tt ->
   writable st = true ->
   handle_image_message env event st
   = (Ok tt, recorded (message_id event) (log calls st)) /\
   replies calls = [SavedToSheet] /\
   appends calls = [values] /\
   ledger (recorded (message_id event) (log calls st))
   = ledger st ++ [message_id event] /\
   contains (message_id event)
     (ledger (recorded (message_id event) (log calls st))) = true).
Proof.
  intros Hc Hget Hs Hgen Hrows Happ values calls.
  subst calls values. rewrite <- convert_to_table_filter.
  change [now env; lit "LINE Message ID: " ++ message_id event]
    with (metadata_row env event).
  set (calls := [GetContent (message_id event);
                 GenerateContent (content response);
                 AppendToSheet (metadata_row env event :: convert_to_table text);
                 ReplyMessage (reply_token event) SavedToSheet]).
  apply rows_truthy in Hrows. apply Z.eqb_eq in Hs.
  assert (Hrun :
    handle_image_message env event st
    = match reply_message env (reply_token event) SavedToSheet,
            writable st with
      | Ok _, true => (Ok tt, recorded (message_id event) (log calls st))
      | _, _ =>
          (reply_message env (reply_token event) ProcessingError,
           log (calls ++ [ReplyMessage (reply_token event) ProcessingError]) st)
      end).
  { run_handler. rewrite Hc, Hget. cbv beta iota. rewrite Hs. cbv beta iota.
    rewrite Hgen. cbv beta iota. rewrite Hrows. cbn [app].
    rewrite Happ, !log_log. cbn [app].
    destruct (reply_message env (reply_token event) SavedToSheet);
      [|rewrite log_log; reflexivity].
    rewrite save_message_id_run, ledger_log, Hc. cbn [writable log].
    destruct (writable st); rewrite ?log_log; reflexivity. }
  split.
  - rewrite Hrun.
    destruct (reply_message env (reply_token event) SavedToSheet) as [[]|];
      [destruct (writable st)|].
    + exists []. cbn [snd recorded trace log]. rewrite app_nil_r. auto.
    + exists [ReplyMessage (reply_token event) ProcessingError]. auto.
    + exists [ReplyMessage (reply_token event) ProcessingError]. auto.
  - intros Hrep Hw. rewrite Hrun, Hrep, Hw. repeat split.
    unfold recorded, ledger at 1. cbn [saved_messages_file].
    rewrite contains_app, contains_self. apply orb_true_r.
Qed.

Lemma handle_first_delivery_witness :
  handle_image_message (sample_env (Ok sample_text) true true) sample_event
    (initial None true)
  = (Ok tt,
     {| saved_messages_file := Some [msg123];
        writable := true;
        trace :=
          [GetContent msg123;
           GenerateContent sample_image;
           AppendToSheet
             [[lit "2024-05-17 09:30:00"; lit "LINE Message ID: msg123"];
              [lit "a"; lit "b"; lit "c"];
              [lit "d"; lit "e"]];
           ReplyMessage (lit "reply-token") SavedToSheet] |}).
Proof.
  refine (proj1 (proj2 (@handle_first_delivery
                   (sample_env (Ok sample_text) true true) sample_event
                   (initial None true)
                   {| status_code := 200; content := sample_image |}
                   sample_text _ _ _ _ _ _) _ _));
    try reflexivity.
  vm_compute. discriminate.
Defined.

(** C2 as stated fails: the fetch, the extraction and the append all succeed
    on a first delivery, yet the identifier is not recorded, and a second
    reply follows the success reply, when the ledger file cannot be written;
    the identifier is not recorded either when the reply call raises. *)
Lemma handle_first_delivery_unrecorded :
  contains msg123 (ledger (initial None false)) = false /\
  requests_get (sample_env (Ok sample_text) true true) msg123
  = Ok {| status_code := 200; content := sample_image |} /\
  generate_content (sample_env (Ok sample_text) true true) sample_image
  = Ok sample_text /\
  convert_to_table sample_text
  = [[lit "a"; lit "b"; lit "c"]; [lit "d"; lit "e"]] /\
  sheets_append (sample_env (Ok sample_text) true true)
    (metadata_row (sample_env (Ok sample_text) true true) sample_event
       :: convert_to_table sample_text) = Ok tt /\
  contains msg123
    (ledger (snd (handle_image_message
                    (sample_env (Ok sample_text) true true)
                    sample_event (initial None false)))) = false /\
  replies (trace (snd (handle_image_message
                         (sample_env (Ok sample_text) true true)
                         sample_event (initial None false))))
  = [SavedToSheet; ProcessingError] /\
  contains msg123
    (ledger (snd (handle_image_message
                    (sample_env (Ok sample_text) true false)
                    sample_event (initial None true)))) = false.
Proof. vm_compute. repeat split. Qed.

(** C3. When the spreadsheet append raises, the handler makes exactly one
    reply, the generic error text, after the fetch, the extraction and the
    failed append; the ledger file is left as it was, so the identifier is
    still absent from it, and a redelivery runs the same calls again. *)
Theorem handle_sink_failure
  (env : Env) (event : MessageEvent) (st : State)
  (response : Response) (text : str) (e : exn) :
  contains (message_id event) (ledger st) = false ->
  requests_get env (message_id event) = Ok response ->
  status_code response = 200%Z ->
  generate_content env (content response) = Ok text ->
  text <> [] ->
  sheets_append env (metadata_row env event :: convert_to_table text)
  = Raised e ->
  let calls :=
    [GetContent (message_id event);
     GenerateContent (content response);
     AppendToSheet (metadata_row env event :: convert_to_table text);
     ReplyMessage (reply_token event) ProcessingError] in
  handle_image_message env event st
  = (reply_message env (reply_token event) ProcessingError, log calls st) /\
  replies calls = [ProcessingError] /\
  saved_messages_file (log calls st) = saved_messages_file st /\
  contains (message_id event) (ledger (log calls st)) = false /\
  fst (handle_image_message env event (log calls st))
  = fst (handle_image_message env event st) /\
  trace (snd (handle_image_message env event (log calls st)))
  = trace (log calls st) ++ calls.
Proof.
  intros Hc Hget Hs Hgen Htext Happ calls.
  apply truthy_nonempty in Htext. apply Z.eqb_eq in Hs.
  assert (Hrun : forall st0, contains (message_id event) (ledger st0) = false ->
            handle_image_message env event st0
            = (reply_message env (reply_token event) ProcessingError,
               log calls st0)).
  { intros st0 Hc0. run_handler. rewrite Hc0, Hget. cbv beta iota.
    rewrite Hs. cbv beta iota. rewrite Hgen. cbv beta iota.
    rewrite Htext. cbn [app]. rewrite Happ, !log_log. reflexivity. }
  split; [now apply Hrun|]. split; [reflexivity|]. split; [reflexivity|].
  split; [exact Hc|].
  rewrite (Hrun (log calls st) Hc), (Hrun st Hc). split; reflexivity.
Qed.

Lemma handle_sink_failure_witness :
  handle_image_message (sample_env (Ok sample_text) false true) sample_event
    (initial None true)
  = (Ok tt,
     {| saved_messages_file := None;
        writable := true;
        trace :=
          [GetContent msg123;
           GenerateContent sample_image;
           AppendToSheet
             [[lit "2024-05-17 09:30:00"; lit "LINE Message ID: msg123"];
              [lit "a"; lit "b"; lit "c"];
              [lit "d"; lit "e"]];
           ReplyMessage (lit "reply-token") ProcessingError] |}).
Proof.
  refine (proj1 (@handle_sink_failure
                   (sample_env (Ok sample_text) false true) sample_event
                   (initial None true)
                   {| status_code := 200; content := sample_image |}
                   sample_text ServiceError _ _ _ _ _ _));
    try reflexivity.
  vm_compute. discriminate.
Defined.

(** Extraction gives no text when the model call raises (the exception is
    caught and [None] returned) or when it returns the empty string. *)
Lemma handle_no_text_run
  (env : Env) (event : MessageEvent) (st : State) (response : Response) :
  contains (message_id event) (ledger st) = false ->
  requests_get env (message_id event) = Ok response ->
  status_code response = 200%Z ->
  (exists e, generate_content env (content response) = Raised e) \/
  generate_content env (content response) = Ok [] ->
  handle_image_message env event st
  = match reply_message env (reply_token event) ExtractionFailed,
          writable st with
    | Ok _, true =>
        (Ok tt,
         recorded (message_id event)
           (log [GetContent (message_id event);
                 GenerateContent (content response);
                 ReplyMessage (reply_token event) ExtractionFailed] st))
    | _, _ =>
        (reply_message env (reply_token event) ProcessingError,
         log [GetContent (message_id event);
              GenerateContent (content response);
              ReplyMessage (reply_token event) ExtractionFailed;
              ReplyMessage (reply_token event) ProcessingError] st)
    end.
Proof.
  intros Hc Hget Hs Hgen. apply Z.eqb_eq in Hs.
  run_handler. rewrite Hc, Hget. cbv beta iota. rewrite Hs. cbv beta iota.
  destruct Hgen as [[e Hgen]|Hgen]; rewrite Hgen; cbv beta iota;
    cbn [truthy]; rewrite !log_log; cbn [app];
    (destruct (reply_message env (reply_token event) ExtractionFailed);
     [|rewrite log_log; reflexivity]);
    rewrite save_message_id_run, ledger_log, Hc; cbn [writable log];
    destruct (writable st); rewrite ?log_log; reflexivity.
Qed.

(** C4, amended. When extraction gives no text (the model call raised and
    the exception was mapped to "no text", or it returned the empty string)
    and neither the "extraction failed" reply nor the ledger write raises:
    the handler returns normally having made exactly three calls (the
    fetch, the extraction, one reply with the "extraction failed" text),
    the spreadsheet is never called, and the identifier is then in the
    ledger.  Whether or not those two calls raise, the calls made are these
    three followed by at most one more reply, so that exactly one
    "extraction failed" reply is made and the spreadsheet is never called. *)
Theorem handle_no_text
  (env : Env) (event : MessageEvent) (st : State) (response : Response) :
  contains (message_id event) (ledger st) = false ->
  requests_get env (message_id event) = Ok response ->
  status_code response = 200%Z ->
  (exists e, generate_content env (content response) = Raised e) \/
  generate_content env (content response) = Ok [] ->
  let calls :=
    [GetContent (message_id event);
     GenerateContent (content response);
     ReplyMessage (reply_token event) ExtractionFailed] in
  (reply_message env (reply_token event) ExtractionFailed = Ok tt ->
   writable st = true ->
   handle_image_message env event st
   = (Ok tt, recorded (message_id event) (log calls st)) /\
   replies calls = [ExtractionFailed] /\
   appends calls = [] /\
   contains (message_id event)
     (ledger (recorded (message_id event) (log calls st))) = true) /\
  (exists rest,
     trace (snd (handle_image_message env event st))
     = trace st ++ calls ++ rest /\
     (rest = [] \/ rest = [ReplyMessage (reply_token event) ProcessingError]) /\
     appends (calls ++ rest) = []).
Proof.
  intros Hc Hget Hs Hgen calls.
  pose proof (@handle_no_text_run env event st response Hc Hget Hs Hgen) as Hrun.
  fold calls in Hrun. split.
  - intros Hrep Hw. rewrite Hrun, Hrep, Hw. repeat split.
    unfold recorded, ledger at 1. cbn [saved_messages_file].
    rewrite contains_app, contains_self. apply orb_true_r.
  - rewrite Hrun.
    destruct (reply_message env (reply_token event) ExtractionFailed) as [[]|];
      [destruct (writable st)|].
    + exists []. cbn [snd recorded trace log]. rewrite app_nil_r. auto.
    + exists [ReplyMessage (reply_token event) ProcessingError]. auto.
    + exists [ReplyMessage (reply_token event) ProcessingError]. auto.
Qed.

Lemma handle_no_text_witness :
  handle_image_message (sample_env (Raised ServiceError) true true) sample_event
    (initial None true)
  = (Ok tt,
     {| saved_messages_file := Some [msg123];
        writable := true;
        trace :=
          [GetContent msg123;
           GenerateContent sample_image;
           ReplyMessage (lit "reply-token") ExtractionFailed] |}).
Proof.
  refine (proj1 (proj1 (@handle_no_text
                   (sample_env (Raised ServiceError) true true) sample_event
                   (initial None true)
                   {| status_code := 200; content := sample_image |}
                   _ _ _ _) _ _));
    try reflexivity.
  left. exists ServiceError. reflexivity.
Defined.

(** C4 as stated fails: extraction gives no text, yet the identifier is not
    recorded, and a second reply follows the "extraction failed" reply, when
    the ledger file cannot be written; the identifier is not recorded either
    when the reply call raises. *)
Lemma handle_no_text_unrecorded :
  contains msg123 (ledger (initial None false)) = false /\
  extract_text_from_image (sample_env (Raised ServiceError) true true)
    sample_image (initial None false)
  = (Ok None, log [GenerateContent sample_image] (initial None false)) /\
  contains msg123
    (ledger (snd (handle_image_message
                    (sample_env (Raised ServiceError) true true)
                    sample_event (initial None false)))) = false /\
  replies (trace (snd (handle_image_message
                         (sample_env (Raised ServiceError) true true)
                         sample_event (initial None false))))
  = [ExtractionFailed; ProcessingError] /\
  contains msg123
    (ledger (snd (handle_image_message
                    (sample_env (Raised ServiceError) true false)
                    sample_event (initial None true)))) = false.
Proof. vm_compute. repeat split. Qed.

(** C5 fails on the code.  With the ledger file not writable, a first
    delivery that is fetched, extracted and appended is answered twice: the
    success reply, then, [save_message_id] having raised inside the outer
    [try], the generic error reply.  The same happens after the
    "extraction failed" reply, and when the first reply call itself raises.
    With a writable ledger and replies delivered there is one reply. *)
Theorem handle_second_reply :
  replies (trace (snd (handle_image_message
                         (sample_env (Ok sample_text) true true)
                         sample_event (initial None false))))
  = [SavedToSheet; ProcessingError] /\
  replies (trace (snd (handle_image_message
                         (sample_env (Raised ServiceError) true true)
                         sample_event (initial None false))))
  = [ExtractionFailed; ProcessingError] /\
  replies (trace (snd (handle_image_message
                         (sample_env (Ok sample_text) true false)
                         sample_event (initial None true))))
  = [SavedToSheet; ProcessingError] /\
  replies (trace (snd (handle_image_message
                         (sample_env (Ok sample_text) true true)
                         sample_event (initial None true))))
  = [SavedToSheet].
Proof. vm_compute. repeat split. Qed.

(** C9, amended. When extraction returns non-empty text that parses into no
    row and the spreadsheet append succeeds, the handler appends exactly one
    row, the metadata row, and then makes the success reply; at most one
    more call follows, a generic error reply, and none when neither the
    success reply nor the ledger write raises, in which case the identifier
    is recorded. *)
Theorem handle_no_rows
  (env : Env) (event : MessageEvent) (st : State)
  (response : Response) (text : str) :
  contains (message_id event) (ledger st) = false ->
  requests_get env (message_id event) = Ok response ->
  status_code response = 200%Z ->
  generate_content env (content response) = Ok text ->
  text <> [] ->
  convert_to_table text = [] ->
  sheets_append env [metadata_row env event] = Ok tt ->
  let calls :=
    [GetContent (message_id event);
     GenerateContent (content response);
     AppendToSheet [[now env; lit "LINE Message ID: " ++ message_id event]];
     ReplyMessage (reply_token event) SavedToSheet] in
  (exists rest,
     trace (snd (handle_image_message env event st))
     = trace st ++ calls ++ rest /\
     (rest = [] \/ rest = [ReplyMessage (reply_token event) ProcessingError]) /\
     appends (calls ++ rest)
     = [[[now env; lit "LINE Message ID: " ++ message_id event]]] /\
     hd_error (replies (calls ++ rest)) = Some SavedToSheet) /\
  (reply_message env (reply_token event) SavedToSheet = Ok tt ->
   writable st = true ->
   handle_image_message env event st
   = (Ok tt, recorded (message_id event) (log calls st)) /\
   replies calls = [SavedToSheet]).
Proof.
  intros Hc Hget Hs Hgen Htext Hrows Happ calls.
  apply truthy_nonempty in Htext. apply Z.eqb_eq in Hs.
  assert (Hrun :
    handle_image_message env event st
    = match reply_message env (reply_token event) SavedToSheet,
            writable st with
      | Ok _, true => (Ok tt, recorded (message_id event) (log calls st))
      | _, _ =>
          (reply_message env (reply_token event) ProcessingError,
           log (calls ++ [ReplyMessage (reply_token event) ProcessingError]) st)
      end).
  { run_handler. rewrite Hc, Hget. cbv beta iota. rewrite Hs. cbv beta iota.
    rewrite Hgen. cbv beta iota. rewrite Htext, Hrows. cbn [app].
    rewrite Happ, !log_log. cbn [app].
    destruct (reply_message env (reply_token event) SavedToSheet);
      [|rewrite log_log; reflexivity].
    rewrite save_message_id_run, ledger_log, Hc. cbn [writable log].
    destruct (writable st); rewrite ?log_log; reflexivity. }
  split.
  - rewrite Hrun.
    destruct (reply_message env (reply_token event) SavedToSheet) as [[]|];
      [destruct (writable st)|].
    + exists []. cbn [snd recorded trace log]. rewrite app_nil_r. auto.
    + exists [ReplyMessage (reply_token event) ProcessingError]. auto.
    + exists [ReplyMessage (reply_token event) ProcessingError]. auto.
  - intros Hrep Hw. rewrite Hrun, Hrep, Hw. split; reflexivity.
Qed.

Lemma handle_no_rows_witness :
  handle_image_message (sample_env (Ok blank_text) true true) sample_event
    (initial None true)
  = (Ok tt,
     {| saved_messages_file := Some [msg123];
        writable := true;
        trace :=
          [GetContent msg123;
           GenerateContent sample_image;
           AppendToSheet
             [[lit "2024-05-17 09:30:00"; lit "LINE Message ID: msg123"]];
           ReplyMessage (lit "reply-token") SavedToSheet] |}).
Proof.
  refine (proj1 (proj2 (@handle_no_rows
                   (sample_env (Ok blank_text) true true) sample_event
                   (initial None true)
                   {| status_code := 200; content := sample_image |}
                   blank_text _ _ _ _ _ _ _) _ _));
    try reflexivity.
  vm_compute. discriminate.
Defined.

(** C9 as stated fails: extraction returns text that parses into no row,
    the append of the metadata row raises, and the only reply is the
    generic error text. *)
Lemma handle_no_rows_sink_failure :
  generate_content (sample_env (Ok blank_text) false true) sample_image
  = Ok blank_text /\
  truthy blank_text = true /\
  convert_to_table blank_text = [] /\
  appends (trace (snd (handle_image_message (sample_env (Ok blank_text) false true)
                         sample_event (initial None true))))
  = [[[lit "2024-05-17 09:30:00"; lit "LINE Message ID: msg123"]]] /\
  sheets_append (sample_env (Ok blank_text) false true)
    [[lit "2024-05-17 09:30:00"; lit "LINE Message ID: msg123"]]
  = Raised ServiceError /\
  replies (trace (snd (handle_image_message (sample_env (Ok blank_text) false true)
                         sample_event (initial None true))))
  = [ProcessingError].
Proof. vm_compute. repeat split. Qed.

(** ** The parser on whole texts *)

Lemma filter_rows_app (l1 l2 : list str) :
  filter (fun row => truthy row) (map line_row (l1 ++ l2))
  = filter (fun row => truthy row) (map line_row l1)
    ++ filter (fun row => truthy row) (map line_row l2).
Proof. now rewrite map_app, filter_app. Qed.

Lemma lstrip_space (c : char) (s : str) :
  isspace c = true -> lstrip (c :: s) = lstrip s.
Proof. intros H. simpl. now rewrite H. Qed.

Lemma strip_cons_space (c : char) (s : str) :
  isspace c = true -> strip (c :: s) = strip s.
Proof. intros H. unfold strip. now rewrite lstrip_space. Qed.

Lemma lstrip_app (p q : str) :
  lstrip (p ++ q) = match lstrip p with [] => lstrip q | _ :: _ => lstrip p ++ q end.
Proof.
  induction p as [|c p IH]; simpl; [reflexivity|].
  destruct (isspace c); [exact IH|reflexivity].
Qed.

Lemma rstrip_snoc_space (c : char) (s : str) :
  isspace c = true -> rstrip (s ++ [c]) = rstrip s.
Proof.
  intros H. unfold rstrip. rewrite rev_app_distr. simpl. now rewrite H.
Qed.

Lemma strip_snoc_space (c : char) (s : str) :
  isspace c = true -> strip (s ++ [c]) = strip s.
Proof.
  intros H. unfold strip. rewrite lstrip_app.
  destruct (lstrip s) as [|d t] eqn:E.
  - simpl. rewrite H. reflexivity.
  - now apply rstrip_snoc_space.
Qed.

Lemma strip_nil : strip [] = [].
Proof. reflexivity. Qed.

Lemma line_row_nil : line_row [] = [].
Proof. reflexivity. Qed.

(** A whitespace character other than a line feed at the start of a line
    does not change its row. *)
Lemma line_row_cons_space (c : char) (line : str) :
  isspace c = true -> line_row (c :: line) = line_row line.
Proof.
  intros H. unfold line_row. simpl split_on.
  destruct (is_tab_or_comma c).
  - simpl. reflexivity.
  - destruct (split_on is_tab_or_comma line) as [|piece pieces] eqn:E.
    + now destruct (split_on_nonempty is_tab_or_comma line).
    + simpl. rewrite (@strip_cons_space c piece H).
      destruct (truthy (strip piece)); simpl;
        now rewrite ?(@strip_cons_space c piece H).
Qed.

Lemma split_on_snoc_sep (p : char -> bool) (s : str) (c : char) :
  p c = true -> split_on p (s ++ [c]) = split_on p s ++ [[]].
Proof.
  intros H. induction s as [|d s IH]; simpl.
  - now rewrite H.
  - rewrite IH. destruct (p d); [reflexivity|].
    destruct (split_on p s) as [|piece pieces] eqn:E; [|reflexivity].
    now destruct (split_on_nonempty p s).
Qed.

Lemma split_on_snoc (p : char -> bool) (s : str) (c : char) :
  p c = false ->
  exists init piece,
    split_on p s = init ++ [piece] /\
    split_on p (s ++ [c]) = init ++ [piece ++ [c]].
Proof.
  intros H. induction s as [|d s (init & piece & E1 & E2)]; simpl.
  - rewrite H. exists [], []. split; reflexivity.
  - rewrite E1, E2. destruct (p d).
    + exists ([] :: init), piece. split; reflexivity.
    + destruct init as [|x init]; simpl.
      * exists [], (d :: piece). split; reflexivity.
      * exists ((d :: x) :: init), piece. split; reflexivity.
Qed.

Lemma line_row_snoc_space (c : char) (line : str) :
  isspace c = true -> line_row (line ++ [c]) = line_row line.
Proof.
  intros H. unfold line_row.
  destruct (is_tab_or_comma c) eqn:Hc.
  - rewrite (@split_on_snoc_sep is_tab_or_comma line c Hc), filter_app, map_app. simpl.
    now rewrite app_nil_r.
  - destruct (@split_on_snoc is_tab_or_comma line c Hc) as (init & piece & E1 & E2).
    rewrite E1, E2, !filter_app, !map_app. f_equal. simpl.
    rewrite (@strip_snoc_space c piece H).
    destruct (truthy (strip piece)); simpl;
      now rewrite ?(@strip_snoc_space c piece H).
Qed.

Lemma rows_cons_space (c : char) (s : str) :
  isspace c = true ->
  rows_of (split_on is_newline (c :: s)) = rows_of (split_on is_newline s).
Proof.
  intros H. unfold rows_of. simpl split_on.
  destruct (is_newline c); [reflexivity|].
  destruct (split_on is_newline s) as [|line lines] eqn:E.
  - now destruct (split_on_nonempty is_newline s).
  - simpl. now rewrite (@line_row_cons_space c line H).
Qed.

Lemma rows_snoc_space (c : char) (s : str) :
  isspace c = true ->
  rows_of (split_on is_newline (s ++ [c])) = rows_of (split_on is_newline s).
Proof.
  intros H. unfold rows_of. destruct (is_newline c) eqn:Hc.
  - rewrite (@split_on_snoc_sep is_newline s c Hc), filter_rows_app. simpl.
    now rewrite app_nil_r.
  - destruct (@split_on_snoc is_newline s c Hc) as (init & line & E1 & E2).
    rewrite E1, E2, !filter_rows_app. f_equal. simpl.
    now rewrite (@line_row_snoc_space c line H).
Qed.

Lemma rows_lstrip (s : str) :
  rows_of (split_on is_newline (lstrip s)) = rows_of (split_on is_newline s).
Proof.
  induction s as [|c s IH]; [reflexivity|]. simpl lstrip.
  destruct (isspace c) eqn:H; [|reflexivity].
  now rewrite IH, (@rows_cons_space c s H).
Qed.

Lemma lstrip_prefix_space (s : str) :
  exists p, s = p ++ lstrip s /\ Forall (fun c => isspace c = true) p.
Proof.
  induction s as [|c s (p & E & Hp)]; simpl.
  - exists []. split; [reflexivity|constructor].
  - destruct (isspace c) eqn:H.
    + exists (c :: p). split; [simpl; now f_equal|now constructor].
    + exists []. split; [reflexivity|constructor].
Qed.

Lemma rstrip_suffix_space (s : str) :
  exists q, s = rstrip s ++ q /\ Forall (fun c => isspace c = true) q.
Proof.
  destruct (lstrip_prefix_space (rev s)) as (p & E & Hp).
  exists (rev p). split.
  - unfold rstrip. rewrite <- rev_app_distr, <- E. now rewrite rev_involutive.
  - now apply Forall_rev.
Qed.

Lemma rows_app_space (s q : str) :
  Forall (fun c => isspace c = true) q ->
  rows_of (split_on is_newline (s ++ q)) = rows_of (split_on is_newline s).
Proof.
  induction q as [|c q IH] using rev_ind; intros H.
  - now rewrite app_nil_r.
  - apply Forall_app in H as [Hq Hc]. inversion Hc; subst.
    rewrite app_assoc, rows_snoc_space by assumption. now apply IH.
Qed.

Lemma rows_rstrip (s : str) :
  rows_of (split_on is_newline (rstrip s)) = rows_of (split_on is_newline s).
Proof.
  destruct (rstrip_suffix_space s) as (q & E & Hq).
  rewrite E at 2. symmetry. now apply rows_app_space.
Qed.

Lemma convert_to_table_raw (text : str) :
  convert_to_table text = rows_of (split_on is_newline text).
Proof.
  rewrite convert_to_table_filter. fold (rows_of (split_on is_newline (strip text))).
  unfold strip. now rewrite rows_rstrip, rows_lstrip.
Qed.

Lemma split_on_app_at (p : char -> bool) (a b : str) (sep : char) :
  p sep = true ->
  split_on p (a ++ sep :: b) = split_on p a ++ split_on p b.
Proof.
  intros H. induction a as [|c a IH]; simpl.
  - now rewrite H.
  - rewrite IH. destruct (p c); [reflexivity|].
    destruct (split_on p a) as [|piece pieces] eqn:E; [|reflexivity].
    now destruct (split_on_nonempty p a).
Qed.

Lemma split_on_length (p : char -> bool) (s : str) :
  List.length (split_on p s) = S (List.length (filter p s)).
Proof.
  induction s as [|c s IH]; simpl; [reflexivity|].
  destruct (p c); simpl; [now rewrite IH|].
  destruct (split_on p s) as [|piece pieces] eqn:E; [|exact IH].
  now destruct (split_on_nonempty p s).
Qed.

(** Splitting keeps what holds of every character, provided it holds of the
    separators. *)
Lemma split_on_Forall (p : char -> bool) (Q : char -> Prop) (s : str) :
  (forall c, p c = true -> Q c) ->
  Forall Q s <-> Forall (Forall Q) (split_on p s).
Proof.
  intros Hsep. induction s as [|c s IH]; simpl.
  - split; intros _; repeat constructor.
  - destruct (p c) eqn:Hc.
    + split; intros H.
      * inversion H; subst. constructor; [constructor|now apply IH].
      * inversion H; subst. constructor; [now apply Hsep|now apply IH].
    + destruct (split_on p s) as [|piece pieces] eqn:E.
      { now destruct (split_on_nonempty p s). }
      split; intros H.
      * inversion H as [|? ? H1 H2]; subst. apply IH in H2.
        inversion H2; subst. constructor; [now constructor|assumption].
      * inversion H as [|? ? H1 H2]; subst. inversion H1; subst.
        constructor; [assumption|]. apply IH. now constructor.
Qed.

Lemma lstrip_nil_iff (s : str) :
  lstrip s = [] <-> Forall (fun c => isspace c = true) s.
Proof.
  induction s as [|c s IH]; simpl.
  - split; intros _; [constructor|reflexivity].
  - destruct (isspace c) eqn:H.
    + rewrite IH. split; intros H1; [now constructor|now inversion H1].
    + split; [discriminate|]. intros H1. inversion H1; congruence.
Qed.

Lemma strip_nil_iff (s : str) :
  strip s = [] <-> Forall (fun c => isspace c = true) s.
Proof.
  split.
  - intros H. destruct (lstrip_prefix_space s) as (p & E & Hp).
    destruct (rstrip_suffix_space (lstrip s)) as (q & E' & Hq).
    fold (strip s) in E'. rewrite H in E'. simpl in E'.
    rewrite E, E'. now apply Forall_app.
  - intros H. apply lstrip_nil_iff in H. unfold strip. now rewrite H.
Qed.

Lemma rows_of_nil_iff (lines : list str) :
  rows_of lines = [] <-> Forall (fun line => line_row line = []) lines.
Proof.
  unfold rows_of. induction lines as [|line lines IH]; simpl.
  - split; intros _; [constructor|reflexivity].
  - destruct (line_row line) eqn:E; simpl.
    + rewrite IH. split; intros H; [now constructor|now inversion H].
    + split; [discriminate|]. intros H. inversion H; congruence.
Qed.

Lemma is_blank_sep (c : char) : is_tab_or_comma c = true -> is_blank c.
Proof.
  unfold is_tab_or_comma, is_blank. intros H.
  apply orb_true_iff in H as [H|H]; apply N.eqb_eq in H; subst;
    [left; reflexivity|right; reflexivity].
Qed.

Lemma is_blank_newline (c : char) : is_newline c = true -> is_blank c.
Proof.
  unfold is_newline. intros H. apply N.eqb_eq in H. subst. now left.
Qed.

Lemma line_row_nil_iff (line : str) :
  line_row line = [] <-> Forall is_blank line.
Proof.
  rewrite (split_on_Forall is_tab_or_comma is_blank line is_blank_sep).
  unfold line_row.
  assert (Hfree : Forall (Forall (fun c => is_tab_or_comma c = false /\ True))
                         (split_on is_tab_or_comma line)).
  { apply split_on_pieces. apply Forall_forall. auto. }
  induction Hfree as [|piece pieces Hp _ IH]; simpl.
  - split; intros _; [constructor|reflexivity].
  - assert (Hb : Forall is_blank piece <-> strip piece = []).
    { rewrite strip_nil_iff. split; intros H.
      - rewrite Forall_forall in *. intros c Hc.
        destruct (H c Hc) as [Hs|Hs]; [exact Hs|].
        destruct (Hp c Hc) as [Hn _]. subst. discriminate.
      - eapply Forall_impl; [|exact H]. intros c Hc. now left. }
    destruct (strip piece) eqn:E; simpl.
    + rewrite IH. split; intros H.
      * constructor; [now apply Hb|assumption].
      * now inversion H.
    + split; [discriminate|]. intros H. inversion H as [|? ? H1 _]; subst.
      apply Hb in H1. discriminate.
Qed.

Lemma convert_to_table_nil_iff_lemma (text : str) :
  convert_to_table text = [] <-> Forall is_blank text.
Proof.
  rewrite convert_to_table_raw, rows_of_nil_iff.
  rewrite (split_on_Forall is_newline is_blank text is_blank_newline).
  split; intros H; (eapply Forall_impl; [|exact H]); intros line;
    apply line_row_nil_iff.
Qed.

Lemma line_row_join (sep : char) (row : list str) :
  is_tab_or_comma sep = true -> row <> [] -> Forall field_ok row ->
  line_row (join sep row) = row.
Proof.
  intros Hsep Hne Hrow. unfold line_row.
  rewrite split_on_join; [|assumption|assumption|].
  - apply strip_trimmed_fields.
    eapply Forall_impl; [|exact Hrow]. now intros f [H _].
  - eapply Forall_impl; [|exact Hrow]. intros f [_ H].
    eapply Forall_impl; [|exact H]. simpl. tauto.
Qed.

Lemma rows_of_joined (sep : char) (rows : list (list str)) :
  is_tab_or_comma sep = true ->
  Forall (fun row => row <> [] /\ Forall field_ok row) rows ->
  rows_of (map (join sep) rows) = rows.
Proof.
  intros Hsep. unfold rows_of. induction 1 as [|row rows [Hne Hrow] _ IH]; simpl.
  - reflexivity.
  - rewrite (@line_row_join sep row Hsep Hne Hrow).
    apply truthy_nonempty in Hne. rewrite Hne. now rewrite IH.
Qed.

Lemma joined_line_no_newline (sep : char) (row : list str) :
  is_tab_or_comma sep = true -> Forall field_ok row ->
  Forall (fun c => is_newline c = false) (join sep row).
Proof.
  intros Hsep Hrow. apply join_Forall; [now apply sep_not_newline|].
  eapply Forall_impl; [|exact Hrow]. intros f [_ H].
  eapply Forall_impl; [|exact H]. simpl. tauto.
Qed.

(** X2. The outer [strip] of [convert_to_table] makes no difference: the
    rows are those of the lines of the text as given, and whitespace
    (line feeds and tabs included) before or after the text changes
    nothing. *)
Theorem convert_to_table_outer_whitespace (text : str) :
  convert_to_table text
  = filter (fun row => truthy row) (map line_row (split_on is_newline text)) /\
  convert_to_table (strip text) = convert_to_table text /\
  (forall pre post,
      Forall (fun c => isspace c = true) pre ->
      Forall (fun c => isspace c = true) post ->
      convert_to_table (pre ++ text ++ post) = convert_to_table text).
Proof.
  split; [apply convert_to_table_raw|]. split.
  - unfold convert_to_table. now rewrite strip_idempotent.
  - intros pre post Hpre Hpost. rewrite !convert_to_table_raw.
    rewrite app_assoc, rows_app_space by assumption.
    clear Hpost. induction Hpre as [|c pre Hc _ IH]; [reflexivity|].
    simpl app. now rewrite rows_cons_space.
Qed.

(** X3. Parsing is line by line: the rows of two texts joined by a line
    feed are the rows of the first followed by the rows of the second. *)
Theorem convert_to_table_line_feed (a b : str) :
  convert_to_table (a ++ LF :: b) = convert_to_table a ++ convert_to_table b.
Proof.
  rewrite !convert_to_table_raw. unfold rows_of.
  rewrite (@split_on_app_at is_newline a b LF eq_refl).
  apply filter_rows_app.
Qed.

(** X4. [convert_to_table] returns no row exactly when every character of
    the text is whitespace or a comma. *)
Theorem convert_to_table_nil_iff (text : str) :
  convert_to_table text = [] <->
  Forall (fun c => isspace c = true \/ c = COMMA) text.
Proof. apply convert_to_table_nil_iff_lemma. Qed.

(** X5. Writing a table out and parsing it gives the table back: for rows
    that are non-empty and whose fields are non-empty, have no whitespace at
    either end and contain no comma, tab or line feed, joining the fields
    of each row with commas (or with tabs) and the rows with line feeds,
    then parsing, returns exactly those rows. *)
Theorem convert_to_table_of_table (sep : char) (rows : list (list str)) :
  sep = COMMA \/ sep = TAB ->
  Forall (fun row => row <> [] /\ Forall field_ok row) rows ->
  convert_to_table (join LF (map (join sep) rows)) = rows.
Proof.
  intros Hsep Hrows.
  assert (Hs : is_tab_or_comma sep = true) by (destruct Hsep; subst; reflexivity).
  rewrite convert_to_table_raw.
  destruct rows as [|row rows]; [reflexivity|].
  rewrite split_on_join; [now apply rows_of_joined|reflexivity|discriminate|].
  apply Forall_map. eapply Forall_impl; [|exact Hrows].
  intros r [_ Hr]. now apply joined_line_no_newline.
Qed.

Lemma convert_to_table_of_table_witness :
  convert_to_table
    (join LF (map (join COMMA)
                [[lit "a"; lit "b c"; lit "d"]; [lit "e"]; [lit "f"; lit "g"]]))
  = [[lit "a"; lit "b c"; lit "d"]; [lit "e"]; [lit "f"; lit "g"]].
Proof.
  apply (@convert_to_table_of_table COMMA
           [[lit "a"; lit "b c"; lit "d"]; [lit "e"]; [lit "f"; lit "g"]]).
  - left. reflexivity.
  - repeat constructor; try discriminate;
      intros; vm_compute; repeat split; repeat constructor.
Defined.

(** X6. [convert_to_table] never returns more rows than the text has lines:
    at most one more than the number of line feeds. *)
Theorem convert_to_table_row_count (text : str) :
  List.length (convert_to_table text)
  <= S (List.length (filter is_newline text)).
Proof.
  rewrite convert_to_table_raw. unfold rows_of.
  rewrite <- split_on_length, <- (length_map line_row).
  apply filter_length_le.
Qed.

(** ** Further properties of the ledger and the handler *)

(** X7. [save_message_id id] leaves every other identifier as it was: for
    [x] different from [id], [x] is in the ledger afterwards exactly when it
    was before; the old ledger is a prefix of the new one; the trace and
    the write permission are untouched.  This holds whether the call
    returns or raises. *)
Theorem save_message_id_frame (id x : str) (st : State) :
  x <> id ->
  contains x (ledger (snd (save_message_id id st))) = contains x (ledger st) /\
  (exists added, ledger (snd (save_message_id id st)) = ledger st ++ added) /\
  writable (snd (save_message_id id st)) = writable st /\
  trace (snd (save_message_id id st)) = trace st.
Proof.
  intros Hx. rewrite save_message_id_run.
  destruct (contains id (ledger st)); [|destruct (writable st) eqn:Hw]; simpl.
  - repeat split. exists []. now rewrite app_nil_r.
  - repeat split; [|now exists [id]|assumption].
    unfold recorded, ledger at 1. simpl. rewrite contains_app. simpl.
    destruct (str_eq_dec x id); [congruence|]. now rewrite !orb_false_r.
  - repeat split; [|assumption]. exists []. now rewrite app_nil_r.
Qed.

Lemma save_message_id_frame_witness :
  contains (lit "msg122")
    (ledger (snd (save_message_id msg123 (initial (Some [lit "msg122"]) true))))
  = contains (lit "msg122") (ledger (initial (Some [lit "msg122"]) true)).
Proof.
  refine (proj1 (@save_message_id_frame msg123 (lit "msg122")
                   (initial (Some [lit "msg122"]) true) _)).
  vm_compute. discriminate.
Defined.

(** X8. When the media fetch raises or answers a status other than 200 on
    a first delivery, the handler makes exactly two calls, the fetch and one
    reply with the generic error text: no extraction, no append; the ledger
    file is left as it was and the identifier stays absent. *)
Theorem handle_download_failure
  (env : Env) (event : MessageEvent) (st : State) :
  contains (message_id event) (ledger st) = false ->
  (exists e, requests_get env (message_id event) = Raised e) \/
  (exists response,
      requests_get env (message_id event) = Ok response /\
      status_code response <> 200%Z) ->
  let calls :=
    [GetContent (message_id event);
     ReplyMessage (reply_token event) ProcessingError] in
  handle_image_message env event st
  = (reply_message env (reply_token event) ProcessingError, log calls st) /\
  saved_messages_file (log calls st) = saved_messages_file st /\
  contains (message_id event) (ledger (log calls st)) = false.
Proof.
  intros Hc Hget calls. split; [|split; [reflexivity|exact Hc]].
  run_handler. rewrite Hc.
  destruct Hget as [[e Hget]|(response & Hget & Hs)]; rewrite Hget;
    cbv beta iota.
  - now rewrite log_log.
  - apply Z.eqb_neq in Hs. rewrite Hs. cbv beta iota. now rewrite log_log.
Qed.

Lemma handle_download_failure_witness :
  handle_image_message
    (fetch_env (Ok {| status_code := 404; content := [] |}))
    sample_event (initial None true)
  = (Ok tt,
     {| saved_messages_file := None;
        writable := true;
        trace := [GetContent msg123;
                  ReplyMessage (lit "reply-token") ProcessingError] |}).
Proof.
  refine (proj1 (@handle_download_failure
                   (fetch_env (Ok {| status_code := 404; content := [] |}))
                   sample_event (initial None true) _ _)).
  - reflexivity.
  - right. exists {| status_code := 404; content := [] |}.
    split; [reflexivity|discriminate].
Defined.

(** The three ways a run of the handler ends. *)
Lemma handle_outcome (env : Env) (event : MessageEvent) (st : State) :
  (contains (message_id event) (ledger st) = true /\
   handle_image_message env event st = (Ok tt, st)) \/
  (contains (message_id event) (ledger st) = false /\
   exists calls,
     (handle_image_message env event st
      = (Ok tt, recorded (message_id event) (log calls st)) /\
      writable st = true /\
      (replies calls = [SavedToSheet] \/ replies calls = [ExtractionFailed])) \/
     (handle_image_message env event st
      = (reply_message env (reply_token event) ProcessingError, log calls st) /\
      exists before,
        calls = before ++ [ReplyMessage (reply_token event) ProcessingError])).
Proof.
  destruct (contains (message_id event) (ledger st)) eqn:Hc.
  { left. split; [reflexivity|]. run_handler. now rewrite Hc. }
  right. split; [reflexivity|].
  assert (Hsave : forall calls,
    save_message_id (message_id event) (log calls st)
    = if writable st then (Ok tt, recorded (message_id event) (log calls st))
      else (Raised OSError, log calls st)).
  { intros calls. now rewrite save_message_id_run, ledger_log, Hc. }
  assert (Hend : forall (r : result unit) calls,
    (exists before,
        calls = before ++ [ReplyMessage (reply_token event) ProcessingError]) ->
    exists calls0,
      ((r, log calls st)
       = (Ok tt, recorded (message_id event) (log calls0 st)) /\
       writable st = true /\
       (replies calls0 = [SavedToSheet] \/
        replies calls0 = [ExtractionFailed])) \/
      ((r, log calls st) = (r, log calls0 st) /\
       exists before,
         calls0 = before ++ [ReplyMessage (reply_token event) ProcessingError])).
  { intros r calls H. exists calls. right. split; [reflexivity|exact H]. }
  run_handler. rewrite Hc.
  destruct (requests_get env (message_id event)) as [response|e];
    cbv beta iota;
    [|rewrite log_log; apply Hend; now exists [GetContent (message_id event)]].
  destruct (status_code response =? 200)%Z; cbv beta iota;
    [|rewrite log_log; apply Hend; now exists [GetContent (message_id event)]].
  destruct (generate_content env (content response)) as [[|c text]|e];
    cbv beta iota; cbn [truthy]; rewrite ?log_log;
    try destruct (sheets_append _ _);
    try destruct (reply_message env (reply_token event) _);
    rewrite ?log_log, ?Hsave; try destruct (writable st);
    rewrite ?log_log; cbn [app];
    first [ eexists; left; split; [reflexivity|]; split; [reflexivity|];
            simpl; now auto
          | apply Hend;
            match goal with
            | |- exists before, ?l = _ => exists (removelast l); reflexivity
            end ].
Qed.

(** X9. The handler returns normally unless the generic error reply itself
    raises: either the run returns, or its result is the result of that
    reply call, which is then the last call of the run. *)
Theorem handle_raises_only_from_error_reply
  (env : Env) (event : MessageEvent) (st : State) :
  fst (handle_image_message env event st) = Ok tt \/
  (fst (handle_image_message env event st)
   = reply_message env (reply_token event) ProcessingError /\
   exists before,
     trace (snd (handle_image_message env event st))
     = trace st ++ before
       ++ [ReplyMessage (reply_token event) ProcessingError]).
Proof.
  destruct (handle_outcome env event st)
    as [[_ E]|[_ (calls & [(E & _)|(E & before & Hb)])]]; rewrite E.
  - now left.
  - now left.
  - right. split; [reflexivity|]. exists before. subst calls. reflexivity.
Qed.

(** X10. Where the ledger write either succeeds or is refused by [open]
    (the two cases of [dump_saved_messages]; a write that fails after the
    file was opened is outside this statement): a run of the handler
    removes no identifier from the ledger and does not change the write
    permission; the ledger either stays as it was or gains exactly the
    identifier of the event at its end, and this happens only when the
    identifier was absent, the run returned normally and made exactly one
    reply, the success or the "extraction failed" text; a ledger without
    duplicates stays so. *)
Theorem handle_ledger_growth
  (env : Env) (event : MessageEvent) (st : State) :
  let st' := snd (handle_image_message env event st) in
  writable st' = writable st /\
  (ledger st' = ledger st \/
   ledger st' = ledger st ++ [message_id event] /\
   contains (message_id event) (ledger st) = false /\
   fst (handle_image_message env event st) = Ok tt /\
   exists calls,
     trace st' = trace st ++ calls /\
     (replies calls = [SavedToSheet] \/ replies calls = [ExtractionFailed])) /\
  (forall x, contains x (ledger st) = true -> contains x (ledger st') = true) /\
  (NoDup (ledger st) -> NoDup (ledger st')).
Proof.
  intros st'. subst st'.
  destruct (handle_outcome env event st)
    as [[_ E]|[Hc (calls & [(E & Hw & Hr)|(E & _)])]]; rewrite E;
    cbn [fst snd].
  - repeat split; auto.
  - assert (Hl : ledger (recorded (message_id event) (log calls st))
                 = ledger st ++ [message_id event]) by reflexivity.
    rewrite Hl. split; [reflexivity|]. split; [|split].
    + right. repeat split; auto. now exists calls.
    + intros x Hx. rewrite contains_app, Hx. reflexivity.
    + intros Hn. now apply NoDup_snoc.
  - repeat split; auto.
Qed.

(** X11. If the identifier of the event is in the ledger after a run, a
    second delivery of the event makes no call and changes nothing,
    whatever the outside world answers then. *)
Theorem handle_redelivery_skipped
  (env env' : Env) (event : MessageEvent) (st : State) :
  contains (message_id event)
    (ledger (snd (handle_image_message env event st))) = true ->
  handle_image_message env' event (snd (handle_image_message env event st))
  = (Ok tt, snd (handle_image_message env event st)).
Proof.
  generalize (snd (handle_image_message env event st)). intros st1 H.
  run_handler. now rewrite H.
Qed.

Lemma handle_redelivery_skipped_witness :
  handle_image_message (sample_env (Ok blank_text) false false) sample_event
    (snd (handle_image_message (sample_env (Ok sample_text) true true)
            sample_event (initial None true)))
  = (Ok tt,
     snd (handle_image_message (sample_env (Ok sample_text) true true)
            sample_event (initial None true))).
Proof.
  apply (@handle_redelivery_skipped
           (sample_env (Ok sample_text) true true)
           (sample_env (Ok blank_text) false false)
           sample_event (initial None true)).
  reflexivity.
Defined.

(** X12. The append is not guarded by the ledger when [open] refuses the
    ledger file for writing: on a first delivery that is fetched, extracted
    and appended, the identifier is not recorded; a second delivery of the
    event, in any later world where the fetch, the extraction and the
    append succeed again, is processed in full and appends again, with the
    metadata row and the rows of that later world; the ledger file is still
    as it was. *)
Theorem handle_redelivery_appends_again
  (env env' : Env) (event : MessageEvent) (st : State)
  (response response' : Response) (text text' : str) :
  contains (message_id event) (ledger st) = false ->
  writable st = false ->
  requests_get env (message_id event) = Ok response ->
  status_code response = 200%Z ->
  generate_content env (content response) = Ok text ->
  text <> [] ->
  sheets_append env (metadata_row env event :: convert_to_table text) = Ok tt ->
  requests_get env' (message_id event) = Ok response' ->
  status_code response' = 200%Z ->
  generate_content env' (content response') = Ok text' ->
  text' <> [] ->
  sheets_append env' (metadata_row env' event :: convert_to_table text')
  = Ok tt ->
  let st1 := snd (handle_image_message env event st) in
  let st2 := snd (handle_image_message env' event st1) in
  saved_messages_file st1 = saved_messages_file st /\
  saved_messages_file st2 = saved_messages_file st /\
  exists calls,
    trace st2 = trace st ++ calls /\
    appends calls
    = [metadata_row env event :: convert_to_table text;
       metadata_row env' event :: convert_to_table text'].
Proof.
  intros Hc Hw Hget Hs Hgen Htext Happ Hget' Hs' Hgen' Htext' Happ' st1 st2.
  assert (Hrun : forall (w : Env) (r : Response) (t : str) (st0 : State),
    requests_get w (message_id event) = Ok r ->
    status_code r = 200%Z ->
    generate_content w (content r) = Ok t ->
    t <> [] ->
    sheets_append w (metadata_row w event :: convert_to_table t) = Ok tt ->
    contains (message_id event) (ledger st0) = false ->
    writable st0 = false ->
    exists calls,
      snd (handle_image_message w event st0) = log calls st0 /\
      appends calls = [metadata_row w event :: convert_to_table t]).
  { intros w r t st0 Hg Hst Hge Ht Ha Hc0 Hw0.
    apply truthy_nonempty in Ht. apply Z.eqb_eq in Hst.
    run_handler. rewrite Hc0, Hg. cbv beta iota.
    rewrite Hst. cbv beta iota. rewrite Hge. cbv beta iota.
    rewrite Ht. cbn [app]. rewrite Ha, !log_log. cbn [app].
    destruct (reply_message w (reply_token event) SavedToSheet).
    - rewrite save_message_id_run, ledger_log, Hc0. cbn [writable log].
      rewrite Hw0, !log_log. cbn [app snd]. eexists. split; reflexivity.
    - rewrite !log_log. cbn [app snd]. eexists. split; reflexivity. }
  destruct (Hrun env response text st Hget Hs Hgen Htext Happ Hc Hw)
    as (calls1 & E1 & A1).
  assert (Hc1 : contains (message_id event) (ledger st1) = false)
    by (subst st1; rewrite E1; exact Hc).
  assert (Hw1 : writable st1 = false)
    by (subst st1; rewrite E1; exact Hw).
  destruct (Hrun env' response' text' st1 Hget' Hs' Hgen' Htext' Happ' Hc1 Hw1)
    as (calls2 & E2 & A2).
  subst st2. rewrite E2. subst st1. rewrite E1, log_log.
  split; [reflexivity|]. split; [reflexivity|].
  exists (calls1 ++ calls2). split; [reflexivity|].
  unfold appends in *. now rewrite flat_map_app, A1, A2.
Qed.

Lemma handle_redelivery_appends_again_witness :
  appends
    (trace (snd (handle_image_message later_env sample_event
                   (snd (handle_image_message
                           (sample_env (Ok sample_text) true true)
                           sample_event (initial None false))))))
  = [[[lit "2024-05-17 09:30:00"; lit "LINE Message ID: msg123"];
      [lit "a"; lit "b"; lit "c"];
      [lit "d"; lit "e"]];
     [[lit "2024-05-17 09:45:10"; lit "LINE Message ID: msg123"];
      [lit "a;b"; lit "c"]]].
Proof.
  destruct (@handle_redelivery_appends_again
              (sample_env (Ok sample_text) true true) later_env sample_event
              (initial None false)
              {| status_code := 200; content := sample_image |}
              {| status_code := 200; content := sample_image |}
              sample_text (lit "a;b,c")
              eq_refl eq_refl eq_refl eq_refl eq_refl
              ltac:(vm_compute; discriminate) eq_refl
              eq_refl eq_refl eq_refl
              ltac:(vm_compute; discriminate) eq_refl)
    as (_ & _ & calls & Ht & Ha).
  rewrite Ht. exact Ha.
Defined.

(** ** The webhook endpoint *)

Lemma handle_events_returns (env : Env) (events : list MessageEvent) (st : State) :
  (forall token, reply_message env token ProcessingError = Ok tt) ->
  fst (handle_events env events st) = Ok tt.
Proof.
  intros Hreply. revert st. induction events as [|event rest IH]; intros st.
  - reflexivity.
  - simpl. unfold bind.
    destruct (handle_image_message env event st) as [r st1] eqn:E.
    assert (Hr : r = Ok tt).
    { change r with (fst (r, st1)). rewrite <- E.
      destruct (handle_outcome env event st)
        as [[_ E']|[_ (calls & [(E' & _)|(E' & _)])]]; rewrite E'; cbn [fst];
        auto. }
    subst r. apply IH.
Qed.

(** X13. The endpoint answers 400 exactly when the signature header is
    missing or empty or the SDK rejects the signature, and then nothing has
    been done; and when the generic error reply never raises, every
    request with a signature and readable events is answered ['OK'],
    whatever happened to its events. *)
Theorem callback_status
  (env : Env) (signature : option str) (webhook : Webhook) (st : State) :
  (fst (callback env signature webhook st) = Abort 400 <->
   signature = None \/ signature = Some [] \/ webhook = InvalidSignature) /\
  (fst (callback env signature webhook st) = Abort 400 ->
   snd (callback env signature webhook st) = st) /\
  ((forall token, reply_message env token ProcessingError = Ok tt) ->
   forall s events,
     s <> [] ->
     callback env (Some s) (ImageMessages events) st
     = (OK, snd (handle_events env events st))).
Proof.
  split; [|split].
  - unfold callback. destruct signature as [[|c s]|]; cbn [truthy fst].
    + split; auto.
    + destruct webhook as [| |events]; cbn [fst].
      * split; auto.
      * split; [discriminate|]. intros [H|[H|H]]; discriminate.
      * destruct (handle_events env events st) as [[]?]; cbn [fst];
          (split; [discriminate|]; intros [H|[H|H]]; discriminate).
    + split; auto.
  - unfold callback. destruct signature as [[|c s]|]; cbn [truthy fst snd];
      auto.
    destruct webhook as [| |events]; cbn [fst snd].
    + auto.
    + discriminate.
    + destruct (handle_events env events st) as [[]?]; cbn [fst]; discriminate.
  - intros Hreply s events Hs. unfold callback.
    apply truthy_nonempty in Hs. rewrite Hs.
    pose proof (@handle_events_returns env events st Hreply) as H.
    destruct (handle_events env events st) as [r st']. cbn [fst snd] in *.
    now subst r.
Qed.

(** ** The command-line script *)

Lemma split_on_app_free (p : char -> bool) (a b : str) :
  Forall (fun c => p c = false) a ->
  exists piece pieces,
    split_on p b = piece :: pieces /\
    split_on p (a ++ b) = (a ++ piece) :: pieces.
Proof.
  intros Ha. induction Ha as [|c a Hc _ (piece & pieces & E1 & E2)]; simpl.
  - destruct (split_on p b) as [|piece pieces] eqn:E.
    + now destruct (split_on_nonempty p b).
    + now exists piece, pieces.
  - rewrite Hc, E2. now exists piece, pieces.
Qed.

Lemma rstrip_app_keep (a s : str) :
  a <> [] -> no_lead (rev a) -> rstrip (a ++ s) = a ++ rstrip s.
Proof.
  intros Hne Ha. unfold rstrip. rewrite rev_app_distr, lstrip_app.
  destruct (lstrip (rev s)) as [|c t] eqn:E.
  - rewrite (lstrip_fixed _ Ha), rev_involutive. simpl. now rewrite app_nil_r.
  - rewrite rev_app_distr, rev_involutive. reflexivity.
Qed.

Lemma strip_app_keep (a s : str) :
  a <> [] -> no_lead a -> no_lead (rev a) -> strip (a ++ s) = a ++ rstrip s.
Proof.
  intros Hne Hl Hr. unfold strip.
  rewrite (@lstrip_fixed (a ++ s)) by now apply no_lead_app_r.
  now apply rstrip_app_keep.
Qed.

(** A text that begins with a trimmed word free of separators and line
    feeds has a first row, whose first field begins with that word. *)
Lemma convert_to_table_leading_word (a s : str) :
  field_ok a ->
  exists rest fields rows,
    convert_to_table (a ++ s) = ((a ++ rest) :: fields) :: rows.
Proof.
  intros [(Hne & Hl & Hr) Hfree].
  assert (Hnl : Forall (fun c => is_newline c = false) a)
    by (eapply Forall_impl; [|exact Hfree]; simpl; tauto).
  assert (Htc : Forall (fun c => is_tab_or_comma c = false) a)
    by (eapply Forall_impl; [|exact Hfree]; simpl; tauto).
  rewrite convert_to_table_raw.
  destruct (@split_on_app_free is_newline a s Hnl)
    as (line & lines & _ & E). rewrite E.
  unfold rows_of. cbn [map]. unfold line_row at 1.
  destruct (@split_on_app_free is_tab_or_comma a line Htc)
    as (piece & pieces & _ & E'). rewrite E'.
  cbn [filter]. rewrite (@strip_app_keep a piece Hne Hl Hr).
  assert (Ht : truthy (a ++ rstrip piece) = true)
    by (destruct a; [congruence|reflexivity]).
  rewrite Ht. cbn [map]. rewrite (@strip_app_keep a piece Hne Hl Hr).
  cbn [truthy filter]. eexists _, _, _. reflexivity.
Qed.

(** X14. In the command-line script a failed extraction is not skipped:
    the error text returned by [extract_text_from_image] is parsed like
    extracted text, so the one call to [append_to_sheet] carries, after the
    row of the timestamp and the image path, at least one row, whose first
    field begins with the error label. *)
Theorem main_failure_is_appended
  (message now : str) (sheets_append : list (list str) -> result unit) :
  exists rest fields rows,
    ImageToText.appended
      (ImageToText.main (ImageToText.Failure message) now sheets_append)
    = [[now; ImageToText.image_path]
       :: ((ImageToText.error_label ++ rest) :: fields) :: rows].
Proof.
  assert (Hok : field_ok ImageToText.error_label).
  { split.
    - split; [discriminate|]. split; reflexivity.
    - repeat constructor. }
  destruct (@convert_to_table_leading_word ImageToText.error_label
              (lit " " ++ message) Hok) as (rest & fields & rows & E).
  exists rest, fields, rows. unfold ImageToText.main.
  cbn [ImageToText.extract_text_from_image]. unfold ImageToText.error_text.
  rewrite E. destruct (sheets_append _); reflexivity.
Qed.
